(** * image_generator.py: prompt building, slugs and the image-generation call

    A shallow embedding of [src/image_generator.py].  Python [str] values are
    lists of Unicode code points, [bytes] are lists of bytes, the effects of
    the module (the outbound request, the written file, the printed lines)
    are recorded in a trace threaded through a small state-and-exception
    monad, and the third-party pieces (the remote service, the image
    decoder and encoder, the console, the interpreter's Unicode case
    tables) are parameters of the model. *)

From Stdlib Require Import List String Ascii Arith NArith Bool Lia.
From Stdlib.Strings Require Import Byte.
Import ListNotations.
Local Open Scope N_scope.
Local Open Scope list_scope.

(** ** Python strings *)

Definition codepoint := N.
Definition pystr := list codepoint.
Definition bytes := list Byte.byte.

(** An ASCII literal of the source, as code points. *)
Definition lit (s : string) : pystr :=
  List.map N_of_ascii (list_ascii_of_string s).

Definition QUOTE : pystr := [34].
Definition NL : pystr := [10].
Definition HYPHEN : codepoint := 45.

(** [str.lower()].  On ASCII it maps [A-Z] to [a-z] and nothing else; on the
    rest of Unicode it follows the interpreter's case tables, which may
    expand a character and look at its context (the final sigma).  The
    tables are a parameter: given what precedes the character, the
    character, and what follows it, they return its lower-case form. *)
Definition case_table := pystr -> codepoint -> pystr -> pystr.

Definition is_upper_ascii (c : codepoint) : bool := (65 <=? c) && (c <=? 90).
Definition is_ascii (c : codepoint) : bool := c <? 128.

Definition ascii_lower (c : codepoint) : codepoint :=
  if is_upper_ascii c then c + 32 else c.

Definition lower_cp (tbl : case_table) (before : pystr) (c : codepoint)
  (after : pystr) : pystr :=
  if is_ascii c then [ascii_lower c] else tbl before c after.

Fixpoint lower_from (tbl : case_table) (before s : pystr) : pystr :=
  match s with
  | [] => []
  | c :: rest => lower_cp tbl before c rest ++ lower_from tbl (before ++ [c]) rest
  end.

Definition str_lower (tbl : case_table) (s : pystr) : pystr :=
  lower_from tbl [] s.

(** The character class [a-z0-9] of the slug pattern. *)
Definition is_az09 (c : codepoint) : bool :=
  ((97 <=? c) && (c <=? 122)) || ((48 <=? c) && (c <=? 57)).

(** [re.sub(r'[cls]+', repl, s)]: the matches of a one-class [+] pattern are
    the maximal runs of characters of the class, each replaced by [repl].
    [in_run] tells that the previous character belonged to a run whose
    replacement is already written. *)
Fixpoint re_sub_runs (cls : codepoint -> bool) (repl : pystr) (in_run : bool)
  (s : pystr) : pystr :=
  match s with
  | [] => []
  | c :: rest =>
      if cls c then
        if in_run then re_sub_runs cls repl true rest
        else repl ++ re_sub_runs cls repl true rest
      else c :: re_sub_runs cls repl false rest
  end.

Definition re_sub_class_plus (cls : codepoint -> bool) (repl s : pystr) : pystr :=
  re_sub_runs cls repl false s.

(** [str.lstrip], [str.rstrip] and [str.strip] for a set of characters. *)
Fixpoint str_lstrip (chars : codepoint -> bool) (s : pystr) : pystr :=
  match s with
  | [] => []
  | c :: rest => if chars c then str_lstrip chars rest else s
  end.

Definition str_rstrip (chars : codepoint -> bool) (s : pystr) : pystr :=
  rev (str_lstrip chars (rev s)).

Definition str_strip (chars : codepoint -> bool) (s : pystr) : pystr :=
  str_rstrip chars (str_lstrip chars s).

(** The slice [s[:n]]. *)
Definition slice_to (n : nat) (s : pystr) : pystr := firstn n s.

(** [slug = re.sub(r'[^a-z0-9]+', '-', topic.lower()).strip('-')[:30]] *)
Definition slug (tbl : case_table) (topic : pystr) : pystr :=
  slice_to 30
    (str_strip (N.eqb HYPHEN)
       (re_sub_class_plus (fun c => negb (is_az09 c)) [HYPHEN]
          (str_lower tbl topic))).

(** A case table that leaves every character alone, for running the model
    on ASCII inputs, where the table is never consulted. *)
Definition no_table : case_table := fun _ c _ => [c].

(** ** Data of the remote service and of the module *)

(** The instances of [Exception] the module meets: the class the handler
    of [generate_image] names.  Those of the SDK, the image library and
    the operating system carry their message. *)
Inductive exn :=
| ValueError (msg : pystr)
| AttributeError (attr : pystr)
| TypeError
| IndexError
| ServiceError (msg : pystr)
| ImageError (msg : pystr)
| OSError (msg : pystr).

(** The exceptions that derive from [BaseException] and not from
    [Exception]: [except Exception] does not catch them. *)
Inductive base_exn :=
| KeyboardInterrupt
| SystemExit
| GeneratorExit.

(** What a call that waits on the outside world may raise. *)
Inductive raised :=
| OfException (e : exn)
| OfBase (b : base_exn).

(** [google.genai.types.Blob]: an object, hence always truthy. *)
Record Blob := { data : option bytes; mime_type : option pystr }.

(** What an attribute probed with [hasattr] and tested for truth may hold. *)
Inductive pyvalue :=
| PyNone
| PyBytes (b : bytes)
| PyBlob (blob : Blob).

(** Python truthiness: [None] and empty [bytes] are falsy, objects truthy. *)
Definition truthy (v : pyvalue) : bool :=
  match v with
  | PyNone => false
  | PyBytes [] => false
  | PyBytes (_ :: _) => true
  | PyBlob _ => true
  end.

(** A response part.  [inline_data = None] is a part without the attribute
    ([hasattr] is false), [Some v] a part whose attribute holds [v]. *)
Record Part := { inline_data : option pyvalue; text : option pystr }.

Record Content := { parts : option (list Part) }.
Record Candidate := { content : option Content }.
Record GenerateContentResponse := { candidates : option (list Candidate) }.

Record GenerateContentConfig := { response_modalities : list pystr }.

(** The keyword arguments of [client.models.generate_content]. *)
Record Request := {
  model : pystr;
  contents : pystr;
  config : GenerateContentConfig
}.

Record Client := { api_key : pystr }.

(** A [pathlib] path as the expression that built it: a literal, or
    [p / child]. *)
Inductive Path :=
| PathOf (s : pystr)
| PathDiv (p : Path) (child : pystr).

(** The names imported from [.config].  The key comes from the environment
    and may be missing. *)
Record Config := {
  GEMINI_API_KEY : option pystr;
  IMAGE_MODEL : pystr;
  IMAGES_DIR : Path
}.

(** A save that raised.  The image library opens the target for writing
    before it encodes, so the file may be left empty or partly written:
    [left_behind] is what the path holds afterwards, [None] when the path
    was not touched. *)
Record save_failure := {
  save_raised : raised;
  left_behind : option bytes
}.

(** The third-party calls, which answer or raise:
    [client.models.generate_content(...)], which waits on the network and
    may be cut short by an exception of either kind;
    [Image.open(io.BytesIO(b))], which works on bytes in memory; and
    [image.save(path, "PNG")], which on success has written the returned
    PNG bytes at [path]. *)
Record Runtime := {
  Image : Type;
  unicode_lower : case_table;
  generate_content : Client -> Request -> raised + GenerateContentResponse;
  image_open : bytes -> exn + Image;
  image_save : Image -> Path -> save_failure + bytes
}.

(** ** Effects *)

Inductive message :=
| MsgSaved (p : Path)         (* Image saved to: {output_path} *)
| MsgNoImage                  (* No image data in response *)
| MsgFailed (e : exn).        (* Image generation failed: {e} *)

Inductive event :=
| EvRequest (c : Client) (r : Request)
| EvFileWritten (p : Path) (b : bytes)
| EvPrint (m : message).

Definition trace := list event.

(** How a computation ends: with a value, with an instance of [Exception]
    on its way up, or with one of the other exceptions on its way up. *)
Inductive outcome (A : Type) :=
| Return (a : A)
| Raised (e : exn)
| RaisedBase (b : base_exn).
Arguments Return {A} a.
Arguments Raised {A} e.
Arguments RaisedBase {A} b.

(** A computation reads the events so far and gives its outcome and the
    events extended; what happened before an exception stays recorded. *)
Definition M (A : Type) := trace -> outcome A * trace.

Definition ret {A} (a : A) : M A := fun t => (Return a, t).
Definition raise {A} (e : exn) : M A := fun t => (Raised e, t).
Definition raise_base {A} (b : base_exn) : M A := fun t => (RaisedBase b, t).
Definition emit (ev : event) : M unit := fun t => (Return tt, t ++ [ev]).

Definition bind {A B} (m : M A) (k : A -> M B) : M B :=
  fun t =>
    match m t with
    | (Return a, t') => k a t'
    | (Raised e, t') => (Raised e, t')
    | (RaisedBase b, t') => (RaisedBase b, t')
    end.

(** [try: body / except Exception as e: handler e].  The handler takes the
    instances of [Exception]; the other exceptions go on to the caller. *)
Definition try_except {A} (body : M A) (handler : exn -> M A) : M A :=
  fun t =>
    match body t with
    | (Return a, t') => (Return a, t')
    | (Raised e, t') => handler e t'
    | (RaisedBase b, t') => (RaisedBase b, t')
    end.

Definition raise_any {A} (r : raised) : M A :=
  match r with
  | OfException e => raise e
  | OfBase b => raise_base b
  end.

(** A call into a library that answers or raises. *)
Definition lift {A} (r : exn + A) : M A :=
  match r with
  | inl e => raise e
  | inr a => ret a
  end.

Definition lift_any {A} (r : raised + A) : M A :=
  match r with
  | inl x => raise_any x
  | inr a => ret a
  end.

Declare Scope py_scope.
Delimit Scope py_scope with py.
Notation "x <- m ;; k" := (bind m (fun x => k))
  (at level 61, m at next level, right associativity) : py_scope.
Notation "m ;; k" := (bind m (fun _ => k))
  (at level 61, right associativity) : py_scope.
Local Open Scope py_scope.

(** ** The module *)

Section ImageGenerator.
Variable cfg : Config.
Variable rt : Runtime.

(** The console: for each line, [None] when it is printed, or the exception
    that writing it raises (a closed or broken stream, a character the
    stream cannot encode). *)
Variable console : message -> option exn.

(** [print(...)] *)
Definition print_on (m : message) : M unit :=
  match console m with
  | None => emit (EvPrint m)
  | Some e => raise e
  end.

(** [not GEMINI_API_KEY] fails for a key that is a non-empty string. *)
Definition key_present (k : option pystr) : bool :=
  match k with
  | Some (_ :: _) => true
  | _ => false
  end.

(** [genai.Client(api_key=key)] keeps the key it is given. *)
Definition genai_Client (key : option pystr) : Client :=
  {| api_key := match key with Some k => k | None => [] end |}.

Definition get_client : M Client :=
  if negb (key_present (GEMINI_API_KEY cfg)) then
    raise (ValueError
             (lit "GEMINI_API_KEY not found. Please set it in your .env file."))
  else
    ret (genai_Client (GEMINI_API_KEY cfg)).

Definition full_prompt (style prompt : pystr) : pystr :=
  lit "Create a " ++ style ++ lit " for a Finnish language learning blog." ++ NL
  ++ NL
  ++ lit "Image description: " ++ prompt ++ NL
  ++ NL
  ++ lit "Requirements:" ++ NL
  ++ lit "- Clean, professional design suitable for educational content" ++ NL
  ++ lit "- Warm, inviting colors (consider Finnish nature: blues, greens, whites)" ++ NL
  ++ lit "- No text in the image (text will be added separately)" ++ NL
  ++ lit "- Simple composition that works well as a blog header" ++ NL
  ++ lit "- Modern, minimalist aesthetic" ++ NL.

Definition image_request (style prompt : pystr) : Request :=
  {| model := IMAGE_MODEL cfg;
     contents := full_prompt style prompt;
     config := {| response_modalities := [lit "image"; lit "text"] |} |}.

(** [client.models.generate_content(...)]: the request leaves, then the
    service answers or the call raises. *)
Definition call_generate_content (client : Client) (req : Request)
  : M GenerateContentResponse :=
  emit (EvRequest client req) ;;
  lift_any (generate_content rt client req).

(** [response.candidates[0].content.parts], as the [for] statement needs
    it: subscripting [None] and iterating over [None] raise [TypeError],
    an empty list has no element 0, [None] has no attribute [parts]. *)
Definition response_parts (response : GenerateContentResponse)
  : exn + list Part :=
  match candidates response with
  | None => inl TypeError
  | Some [] => inl IndexError
  | Some (c :: _) =>
      match content c with
      | None => inl (AttributeError (lit "parts"))
      | Some ct =>
          match parts ct with
          | None => inl TypeError
          | Some ps => inr ps
          end
      end
  end.

(** [hasattr(part, 'inline_data') and part.inline_data] *)
Definition image_bearing (part : Part) : bool :=
  match inline_data part with
  | None => false
  | Some v => truthy v
  end.

(** [part.inline_data.data], for a part that passed the test. *)
Definition inline_bytes (part : Part) : exn + option bytes :=
  match inline_data part with
  | Some (PyBlob blob) => inr (data blob)
  | _ => inl (AttributeError (lit "data"))
  end.

(** [io.BytesIO(image_data)]: [None] gives an empty buffer. *)
Definition BytesIO (image_data : option bytes) : bytes :=
  match image_data with
  | Some b => b
  | None => []
  end.

Definition output_path_of (filename : pystr) : Path :=
  PathDiv (IMAGES_DIR cfg) (filename ++ lit ".png").

(** [image.save(output_path, "PNG")]: the file holds the PNG, or the call
    raises after leaving at the path what the failure left behind. *)
Definition call_image_save (image : Image rt) (output_path : Path) : M unit :=
  match image_save rt image output_path with
  | inr png => emit (EvFileWritten output_path png)
  | inl failure =>
      match left_behind failure with
      | Some b => emit (EvFileWritten output_path b)
      | None => ret tt
      end ;;
      raise_any (save_raised failure)
  end.

(** The body of the [if] inside the loop. *)
Definition save_part_on (filename : pystr) (part : Part) : M (option Path) :=
  image_data <- lift (inline_bytes part) ;;
  let output_path := output_path_of filename in
  image <- lift (image_open rt (BytesIO image_data)) ;;
  call_image_save image output_path ;;
  print_on (MsgSaved output_path) ;;
  ret (Some output_path).

(** The [for] loop with the two statements after it. *)
Fixpoint scan_parts_on (filename : pystr) (ps : list Part) : M (option Path) :=
  match ps with
  | [] => print_on MsgNoImage ;; ret None
  | part :: rest =>
      if image_bearing part then save_part_on filename part
      else scan_parts_on filename rest
  end.

(** The [try] block of [generate_image]. *)
Definition generate_image_try_on (client : Client) (style prompt filename : pystr)
  : M (option Path) :=
  response <- call_generate_content client (image_request style prompt) ;;
  ps <- lift (response_parts response) ;;
  scan_parts_on filename ps.

(** The [except Exception as e:] block of [generate_image]. *)
Definition generate_image_except_on (e : exn) : M (option Path) :=
  print_on (MsgFailed e) ;;
  ret None.

(** [generate_image(prompt, filename, style)] *)
Definition generate_image_on (prompt filename style : pystr) : M (option Path) :=
  client <- get_client ;;
  try_except
    (generate_image_try_on client style prompt filename)
    generate_image_except_on.

Definition default_style : pystr := lit "modern flat illustration".

Definition default_header_prompt (topic : pystr) : pystr :=
  lit "A warm, inviting illustration representing " ++ QUOTE ++ topic ++ QUOTE
  ++ lit " " ++ NL
  ++ lit "        for Finnish language learners. The scene should evoke Finland's "
  ++ NL
  ++ lit "        culture and lifestyle while being educational and approachable.".

(** [if custom_prompt:] holds for a prompt that is a non-empty string. *)
Definition header_prompt (topic : pystr) (custom_prompt : option pystr) : pystr :=
  match custom_prompt with
  | Some (c :: p) => c :: p
  | _ => default_header_prompt topic
  end.

Definition header_filename (topic date : pystr) : pystr :=
  date ++ lit "-" ++ slug (unicode_lower rt) topic.

(** [generate_blog_header_image(topic, date, custom_prompt)] *)
Definition generate_blog_header_image_on (topic date : pystr)
  (custom_prompt : option pystr) : M (option Path) :=
  generate_image_on (header_prompt topic custom_prompt)
    (header_filename topic date) default_style.

Definition vocabulary_prompt (finnish_word english_translation : pystr) : pystr :=
  lit "A simple, clean illustration representing the Finnish word "
  ++ QUOTE ++ finnish_word ++ QUOTE ++ lit " " ++ NL
  ++ lit "    (meaning " ++ QUOTE ++ english_translation ++ QUOTE
  ++ lit " in English). " ++ NL
  ++ lit "    The image should be iconic and memorable, helping learners associate "
  ++ NL
  ++ lit "    the visual with the word. No text should be in the image.".

Definition vocabulary_filename (finnish_word date : pystr) : pystr :=
  date ++ lit "-vocab-" ++ str_lower (unicode_lower rt) finnish_word.

(** [generate_vocabulary_card_image(finnish_word, english_translation, date)] *)
Definition generate_vocabulary_card_image_on
  (finnish_word english_translation date : pystr) : M (option Path) :=
  generate_image_on (vocabulary_prompt finnish_word english_translation)
    (vocabulary_filename finnish_word date) (lit "simple icon illustration").

End ImageGenerator.

(** ** The module on a console that takes every line

    The console is not part of the contract of the module.  The names of
    the source without a suffix stand for the functions above run on a
    console that prints whatever it is given, so that every [print] that is
    reached puts its line on record. *)

Definition working_console : message -> option exn := fun _ => None.

Definition print : message -> M unit := print_on working_console.

Definition save_part (cfg : Config) (rt : Runtime)
  : pystr -> Part -> M (option Path) :=
  save_part_on cfg rt working_console.

Definition scan_parts (cfg : Config) (rt : Runtime)
  : pystr -> list Part -> M (option Path) :=
  scan_parts_on cfg rt working_console.

Definition generate_image_try (cfg : Config) (rt : Runtime)
  : Client -> pystr -> pystr -> pystr -> M (option Path) :=
  generate_image_try_on cfg rt working_console.

Definition generate_image_except : exn -> M (option Path) :=
  generate_image_except_on working_console.

Definition generate_image (cfg : Config) (rt : Runtime)
  : pystr -> pystr -> pystr -> M (option Path) :=
  generate_image_on cfg rt working_console.

Definition generate_blog_header_image (cfg : Config) (rt : Runtime)
  : pystr -> pystr -> option pystr -> M (option Path) :=
  generate_blog_header_image_on cfg rt working_console.

Definition generate_vocabulary_card_image (cfg : Config) (rt : Runtime)
  : pystr -> pystr -> pystr -> M (option Path) :=
  generate_vocabulary_card_image_on cfg rt working_console.

(** ** Reading a run *)

Definition run {A} (m : M A) : outcome A * trace := m [].

Definition requests_of (t : trace) : list Request :=
  flat_map (fun ev => match ev with EvRequest _ r => [r] | _ => [] end) t.

Definition files_written (t : trace) : list (Path * bytes) :=
  flat_map (fun ev => match ev with EvFileWritten p b => [(p, b)] | _ => [] end) t.

(** ** Stand-ins for the collaborators, to run the module on concrete data *)

Definition response_of_parts (ps : list Part) : GenerateContentResponse :=
  {| candidates := Some [ {| content := Some {| parts := Some ps |} |} ] |}.

(** Parts as the SDK builds them: every field exists, the unset one is
    [None]. *)
Definition text_part (s : pystr) : Part :=
  {| inline_data := Some PyNone; text := Some s |}.

Definition blob_part (b : bytes) : Part :=
  {| inline_data :=
       Some (PyBlob {| data := Some b; mime_type := Some (lit "image/png") |});
     text := None |}.

Definition png_magic (b : bytes) : bool :=
  match b with
  | x89 :: x50 :: x4e :: x47 :: _ => true
  | _ => false
  end.

(** A service that always gives [answer], a decoder that accepts what starts
    with the PNG signature, and a disk that takes the file or refuses it. *)
Definition mock_rt (answer : raised + GenerateContentResponse) (disk_ok : bool)
  : Runtime :=
  {| Image := bytes;
     unicode_lower := no_table;
     generate_content := fun _ _ => answer;
     image_open := fun b =>
       if png_magic b then inr b
       else inl (ImageError (lit "cannot identify image file"));
     image_save := fun img _ =>
       if disk_ok then inr img
       else inl {| save_raised := OfException (OSError (lit "No such file or directory"));
                   left_behind := None |} |}.

(** The runtime [rt] with the service answering [response]. *)
Definition answering (rt : Runtime) (response : GenerateContentResponse)
  : Runtime :=
  {| Image := Image rt;
     unicode_lower := unicode_lower rt;
     generate_content := fun _ _ => inr response;
     image_open := image_open rt;
     image_save := image_save rt |}.

Definition demo_cfg : Config :=
  {| GEMINI_API_KEY := Some (lit "secret");
     IMAGE_MODEL := lit "image-model";
     IMAGES_DIR := PathOf (lit "images") |}.

Definition nokey_cfg : Config :=
  {| GEMINI_API_KEY := None;
     IMAGE_MODEL := lit "image-model";
     IMAGES_DIR := PathOf (lit "images") |}.

Definition demo_png : bytes := [x89; x50; x4e; x47; x0d; x0a; x1a; x0a].
Definition demo_garbage : bytes := [x00; x01; x02].

Definition demo_response : GenerateContentResponse :=
  response_of_parts
    [text_part (lit "Here is your image."); blob_part demo_png;
     blob_part demo_garbage].

Definition demo_rt : Runtime := mock_rt (inr demo_response) true.

(** ** Shapes of strings *)

Definition slug_char (c : codepoint) : bool := is_az09 c || (c =? HYPHEN).

(** No two hyphens in a row. *)
Fixpoint single_hyphens (s : pystr) : bool :=
  match s with
  | a :: (b :: _) as rest =>
      negb ((a =? HYPHEN) && (b =? HYPHEN)) && single_hyphens rest
  | _ => true
  end.

Definition starts_with_hyphen (s : pystr) : bool :=
  match s with
  | c :: _ => c =? HYPHEN
  | [] => false
  end.

Definition ends_with_hyphen (s : pystr) : bool := starts_with_hyphen (rev s).

(** What the specification asks of a slug. *)
Definition well_formed_slug (s : pystr) : bool :=
  forallb slug_char s && single_hyphens s
  && negb (starts_with_hyphen s) && negb (ends_with_hyphen s)
  && (Nat.leb (List.length s) 30).

(** ** The words of the specification, for comparison *)

(** "Lowercased", position by position: an ASCII capital moves 32 places
    up, any other ASCII character stays, and a character outside ASCII
    takes what the case tables give for it between what precedes and what
    follows it in the word. *)
Definition lowercased_at (tbl : case_table) (w : pystr) (i : nat) : pystr :=
  let c := nth i w 0 in
  if c <? 128 then [if (65 <=? c) && (c <=? 90) then c + 32 else c]
  else tbl (firstn i w) c (skipn (S i) w).

Definition lowercased (tbl : case_table) (w : pystr) : pystr :=
  List.concat (List.map (lowercased_at tbl w) (seq 0 (List.length w))).

(** "Non-alphanumeric runs collapsed to single hyphens": every character
    outside [a-z] and [0-9] becomes a hyphen, then every hyphen that is
    followed by a hyphen is dropped. *)
Definition hyphen_for_other (c : codepoint) : codepoint :=
  if ((97 <=? c) && (c <=? 122)) || ((48 <=? c) && (c <=? 57)) then c else 45.

Fixpoint drop_repeated_hyphens (s : pystr) : pystr :=
  match s with
  | [] => []
  | a :: rest =>
      match rest with
      | [] => [a]
      | b :: _ =>
          if (a =? 45) && (b =? 45) then drop_repeated_hyphens rest
          else a :: drop_repeated_hyphens rest
      end
  end.

Definition runs_collapsed (s : pystr) : pystr :=
  drop_repeated_hyphens (List.map hyphen_for_other s).

(** * Properties *)

(** ** The loop over the parts *)

Lemma image_bearing_iff (p : Part) :
  image_bearing p = true <-> exists v, inline_data p = Some v /\ truthy v = true.
Proof.
  unfold image_bearing. destruct (inline_data p) as [v|].
  - split; [intros H; exists v; auto | intros (w & E & H); congruence].
  - split; [discriminate | intros (w & E & _); discriminate].
Qed.

Lemma truthy_false_iff (v : pyvalue) :
  truthy v = false <-> v = PyNone \/ v = PyBytes [].
Proof.
  destruct v as [|[|b bs]|blob]; simpl; split; intros H;
    try (destruct H; discriminate); try discriminate; auto.
Qed.

(** Parts that fail the test are passed over. *)
Lemma scan_parts_on_skip cfg rt console filename (pre rest : list Part) :
  (forall p, In p pre -> image_bearing p = false) ->
  scan_parts_on cfg rt console filename (pre ++ rest)
  = scan_parts_on cfg rt console filename rest.
Proof.
  induction pre as [|p pre IH]; intros Hpre; simpl; [reflexivity|].
  rewrite (Hpre p (or_introl eq_refl)). apply IH.
  intros q Hq. apply Hpre. now right.
Qed.

(** The loop stops at the first part that passes the test. *)
Lemma scan_parts_on_first cfg rt console filename (pre : list Part) part post :
  (forall p, In p pre -> image_bearing p = false) ->
  image_bearing part = true ->
  scan_parts_on cfg rt console filename (pre ++ part :: post)
  = save_part_on cfg rt console filename part.
Proof.
  intros Hpre Hpart. rewrite scan_parts_on_skip by assumption.
  simpl. now rewrite Hpart.
Qed.

Lemma scan_parts_skip cfg rt filename (pre rest : list Part) :
  (forall p, In p pre -> image_bearing p = false) ->
  scan_parts cfg rt filename (pre ++ rest) = scan_parts cfg rt filename rest.
Proof. apply scan_parts_on_skip. Qed.

Lemma scan_parts_first cfg rt filename (pre : list Part) part post :
  (forall p, In p pre -> image_bearing p = false) ->
  image_bearing part = true ->
  scan_parts cfg rt filename (pre ++ part :: post) = save_part cfg rt filename part.
Proof. apply scan_parts_on_first. Qed.

Lemma scan_parts_none cfg rt filename (ps : list Part) :
  (forall p, In p ps -> image_bearing p = false) ->
  scan_parts cfg rt filename ps = (print MsgNoImage ;; ret None)%py.
Proof.
  intros H. rewrite <- (app_nil_r ps). now rewrite scan_parts_skip.
Qed.

(** The loop sees only the parts that pass the test. *)
Lemma scan_parts_filter cfg rt filename (ps : list Part) :
  scan_parts cfg rt filename ps
  = scan_parts cfg rt filename (filter image_bearing ps).
Proof.
  unfold scan_parts.
  induction ps as [|p ps IH]; simpl; [reflexivity|].
  destruct (image_bearing p) eqn:E; simpl; [now rewrite E | exact IH].
Qed.

(** ** Running [generate_image] *)

(** What [print] and the handler do, by what the console does. *)
Lemma print_on_run console m t :
  print_on console m t
  = match console m with
    | None => (Return tt, t ++ [EvPrint m])
    | Some e => (Raised e, t)
    end.
Proof. unfold print_on. now destruct (console m). Qed.

Lemma generate_image_except_on_run console e t :
  generate_image_except_on console e t
  = match console (MsgFailed e) with
    | None => (Return None, t ++ [EvPrint (MsgFailed e)])
    | Some e' => (Raised e', t)
    end.
Proof.
  unfold generate_image_except_on, bind. rewrite print_on_run.
  now destruct (console (MsgFailed e)).
Qed.

(** With a key, the call is its [try] statement run after the request. *)
Lemma generate_image_on_with_key cfg rt console prompt filename style t :
  key_present (GEMINI_API_KEY cfg) = true ->
  generate_image_on cfg rt console prompt filename style t
  = try_except
      (generate_image_try_on cfg rt console (genai_Client (GEMINI_API_KEY cfg))
         style prompt filename)
      (generate_image_except_on console) t.
Proof.
  intros K. unfold generate_image_on, get_client, bind. rewrite K. reflexivity.
Qed.

Lemma generate_image_on_no_key cfg rt console prompt filename style t :
  key_present (GEMINI_API_KEY cfg) = false ->
  generate_image_on cfg rt console prompt filename style t
  = (Raised (ValueError
               (lit "GEMINI_API_KEY not found. Please set it in your .env file.")),
     t).
Proof.
  intros K. unfold generate_image_on, get_client, bind. rewrite K. reflexivity.
Qed.

Lemma generate_image_with_key cfg rt prompt filename style t :
  key_present (GEMINI_API_KEY cfg) = true ->
  generate_image cfg rt prompt filename style t
  = try_except
      (generate_image_try cfg rt (genai_Client (GEMINI_API_KEY cfg))
         style prompt filename)
      generate_image_except t.
Proof. apply generate_image_on_with_key. Qed.

Lemma generate_image_no_key cfg rt prompt filename style t :
  key_present (GEMINI_API_KEY cfg) = false ->
  generate_image cfg rt prompt filename style t
  = (Raised (ValueError
               (lit "GEMINI_API_KEY not found. Please set it in your .env file.")),
     t).
Proof. apply generate_image_on_no_key. Qed.

(** The [try] block, by what the service does. *)
Lemma generate_image_try_on_raised cfg rt console client style prompt filename x t :
  generate_content rt client (image_request cfg style prompt) = inl x ->
  generate_image_try_on cfg rt console client style prompt filename t
  = raise_any x (t ++ [EvRequest client (image_request cfg style prompt)]).
Proof.
  intros G. unfold generate_image_try_on, call_generate_content, bind, emit, lift_any.
  rewrite G. destruct x; reflexivity.
Qed.

Lemma generate_image_try_on_no_parts
  cfg rt console client style prompt filename response e t :
  generate_content rt client (image_request cfg style prompt) = inr response ->
  response_parts response = inl e ->
  generate_image_try_on cfg rt console client style prompt filename t
  = (Raised e, t ++ [EvRequest client (image_request cfg style prompt)]).
Proof.
  intros G P.
  unfold generate_image_try_on, call_generate_content, bind, emit, lift_any, lift.
  rewrite G. simpl. rewrite P. reflexivity.
Qed.

Lemma generate_image_try_on_parts
  cfg rt console client style prompt filename response ps t :
  generate_content rt client (image_request cfg style prompt) = inr response ->
  response_parts response = inr ps ->
  generate_image_try_on cfg rt console client style prompt filename t
  = scan_parts_on cfg rt console filename ps
      (t ++ [EvRequest client (image_request cfg style prompt)]).
Proof.
  intros G P.
  unfold generate_image_try_on, call_generate_content, bind, emit, lift_any, lift.
  rewrite G. simpl. rewrite P. reflexivity.
Qed.

Lemma generate_image_try_parts cfg rt client style prompt filename response ps t :
  generate_content rt client (image_request cfg style prompt) = inr response ->
  response_parts response = inr ps ->
  generate_image_try cfg rt client style prompt filename t
  = scan_parts cfg rt filename ps
      (t ++ [EvRequest client (image_request cfg style prompt)]).
Proof. apply generate_image_try_on_parts. Qed.

(** What [save_part] does, case by case. *)
Lemma save_part_on_saved cfg rt console filename part d img png t :
  inline_bytes part = inr d ->
  image_open rt (BytesIO d) = inr img ->
  image_save rt img (output_path_of cfg filename) = inr png ->
  save_part_on cfg rt console filename part t
  = match console (MsgSaved (output_path_of cfg filename)) with
    | None =>
        (Return (Some (output_path_of cfg filename)),
         t ++ [EvFileWritten (output_path_of cfg filename) png;
               EvPrint (MsgSaved (output_path_of cfg filename))])
    | Some e => (Raised e, t ++ [EvFileWritten (output_path_of cfg filename) png])
    end.
Proof.
  intros D O S. unfold save_part_on, call_image_save, bind, lift, emit, ret.
  rewrite D. simpl. rewrite O. simpl. rewrite S. rewrite print_on_run.
  destruct (console _); [reflexivity|]. now rewrite <- app_assoc.
Qed.

Lemma save_part_on_raises cfg rt console filename part t :
  forall e,
    inline_bytes part = inl e
    \/ (exists d, inline_bytes part = inr d /\ image_open rt (BytesIO d) = inl e) ->
    save_part_on cfg rt console filename part t = (Raised e, t).
Proof.
  intros e [D | (d & D & O)];
    unfold save_part_on, bind, lift, raise, ret; rewrite D; simpl;
    try reflexivity; rewrite O; reflexivity.
Qed.

(** A save that raises: what it left behind is on record, then the
    exception goes up. *)
Lemma save_part_on_save_raises cfg rt console filename part d img failure t :
  inline_bytes part = inr d ->
  image_open rt (BytesIO d) = inr img ->
  image_save rt img (output_path_of cfg filename) = inl failure ->
  save_part_on cfg rt console filename part t
  = raise_any (save_raised failure)
      (t ++ match left_behind failure with
            | Some b => [EvFileWritten (output_path_of cfg filename) b]
            | None => []
            end).
Proof.
  intros D O S. unfold save_part_on, call_image_save, bind, lift, emit, ret.
  rewrite D. simpl. rewrite O. simpl. rewrite S.
  destruct (left_behind failure) as [b|]; simpl;
    [|rewrite app_nil_r]; destruct (save_raised failure); reflexivity.
Qed.

Lemma save_part_ok cfg rt filename part d img png t :
  inline_bytes part = inr d ->
  image_open rt (BytesIO d) = inr img ->
  image_save rt img (output_path_of cfg filename) = inr png ->
  save_part cfg rt filename part t
  = (Return (Some (output_path_of cfg filename)),
     t ++ [EvFileWritten (output_path_of cfg filename) png;
           EvPrint (MsgSaved (output_path_of cfg filename))]).
Proof.
  intros D O S.
  exact (save_part_on_saved cfg rt working_console filename part d img png t D O S).
Qed.

Lemma save_part_raises cfg rt filename part t :
  forall e,
    inline_bytes part = inl e
    \/ (exists d, inline_bytes part = inr d /\ image_open rt (BytesIO d) = inl e) ->
    save_part cfg rt filename part t = (Raised e, t).
Proof. apply save_part_on_raises. Qed.

Lemma save_part_save_raises cfg rt filename part d img failure t :
  inline_bytes part = inr d ->
  image_open rt (BytesIO d) = inr img ->
  image_save rt img (output_path_of cfg filename) = inl failure ->
  save_part cfg rt filename part t
  = raise_any (save_raised failure)
      (t ++ match left_behind failure with
            | Some b => [EvFileWritten (output_path_of cfg filename) b]
            | None => []
            end).
Proof. apply save_part_on_save_raises. Qed.

(** The [try] statement, by how its body ends. *)
Lemma try_except_on_caught console (body : M (option Path)) t e t' :
  body t = (Raised e, t') ->
  try_except body (generate_image_except_on console) t
  = match console (MsgFailed e) with
    | None => (Return None, t' ++ [EvPrint (MsgFailed e)])
    | Some e' => (Raised e', t')
    end.
Proof.
  intros B. unfold try_except. rewrite B. apply generate_image_except_on_run.
Qed.

Lemma try_except_on_base console (body : M (option Path)) t b t' :
  body t = (RaisedBase b, t') ->
  try_except body (generate_image_except_on console) t = (RaisedBase b, t').
Proof. intros B. unfold try_except. now rewrite B. Qed.

Lemma try_except_caught (body : M (option Path)) t e t' :
  body t = (Raised e, t') ->
  try_except body generate_image_except t
  = (Return None, t' ++ [EvPrint (MsgFailed e)]).
Proof.
  intros B. exact (try_except_on_caught working_console body t e t' B).
Qed.

Lemma try_except_base (body : M (option Path)) t b t' :
  body t = (RaisedBase b, t') ->
  try_except body generate_image_except t = (RaisedBase b, t').
Proof. apply try_except_on_base. Qed.

(** Every way a call can take.  [files] is what a run that did not come to
    its end may have put at the output path. *)
Lemma save_part_on_cases cfg rt console filename part t :
  (exists png,
      console (MsgSaved (output_path_of cfg filename)) = None
      /\ save_part_on cfg rt console filename part t
         = (Return (Some (output_path_of cfg filename)),
            t ++ [EvFileWritten (output_path_of cfg filename) png;
                  EvPrint (MsgSaved (output_path_of cfg filename))]))
  \/ (exists files,
         (files = []
          \/ exists b, files = [EvFileWritten (output_path_of cfg filename) b])
         /\ ((exists e,
                 save_part_on cfg rt console filename part t
                 = (Raised e, t ++ files))
             \/ (exists x,
                    save_part_on cfg rt console filename part t
                    = (RaisedBase x, t ++ files)))).
Proof.
  destruct (inline_bytes part) as [e|d] eqn:D.
  { right. exists []. split; [now left|]. left. exists e.
    rewrite app_nil_r. apply save_part_on_raises. now left. }
  destruct (image_open rt (BytesIO d)) as [e|img] eqn:O.
  { right. exists []. split; [now left|]. left. exists e.
    rewrite app_nil_r. apply save_part_on_raises. right. now exists d. }
  destruct (image_save rt img (output_path_of cfg filename)) as [failure|png] eqn:S.
  - right.
    rewrite (save_part_on_save_raises cfg rt console filename part d img failure t
               D O S).
    exists (match left_behind failure with
            | Some b => [EvFileWritten (output_path_of cfg filename) b]
            | None => []
            end).
    split.
    + destruct (left_behind failure) as [b|]; [right; now exists b | now left].
    + destruct (save_raised failure) as [e|x];
        [left; now exists e | right; now exists x].
  - rewrite (save_part_on_saved cfg rt console filename part d img png t D O S).
    destruct (console (MsgSaved (output_path_of cfg filename))) as [e|] eqn:C.
    + right. exists [EvFileWritten (output_path_of cfg filename) png].
      split; [right; now exists png|]. left. now exists e.
    + left. exists png. now split.
Qed.

Lemma scan_parts_on_cases cfg rt console filename ps t :
  (exists png,
      console (MsgSaved (output_path_of cfg filename)) = None
      /\ scan_parts_on cfg rt console filename ps t
         = (Return (Some (output_path_of cfg filename)),
            t ++ [EvFileWritten (output_path_of cfg filename) png;
                  EvPrint (MsgSaved (output_path_of cfg filename))]))
  \/ (console MsgNoImage = None
      /\ scan_parts_on cfg rt console filename ps t
         = (Return None, t ++ [EvPrint MsgNoImage]))
  \/ (exists files,
         (files = []
          \/ exists b, files = [EvFileWritten (output_path_of cfg filename) b])
         /\ ((exists e,
                 scan_parts_on cfg rt console filename ps t
                 = (Raised e, t ++ files))
             \/ (exists x,
                    scan_parts_on cfg rt console filename ps t
                    = (RaisedBase x, t ++ files)))).
Proof.
  induction ps as [|p ps IH]; cbn [scan_parts_on].
  - unfold bind. rewrite print_on_run.
    destruct (console MsgNoImage) as [e|] eqn:C.
    + right. right. exists []. split; [now left|]. left. exists e.
      now rewrite app_nil_r.
    + right. left. now split.
  - destruct (image_bearing p); [|exact IH].
    destruct (save_part_on_cases cfg rt console filename p t) as [H|H];
      [now left | now right; right].
Qed.

Lemma generate_image_on_cases cfg rt console prompt filename style :
  key_present (GEMINI_API_KEY cfg) = true ->
  let sent := EvRequest (genai_Client (GEMINI_API_KEY cfg))
                (image_request cfg style prompt) in
  let output_path := output_path_of cfg filename in
  let call := run (generate_image_on cfg rt console prompt filename style) in
  (exists png,
      console (MsgSaved output_path) = None
      /\ call = (Return (Some output_path),
                 [sent; EvFileWritten output_path png;
                  EvPrint (MsgSaved output_path)]))
  \/ (console MsgNoImage = None
      /\ call = (Return None, [sent; EvPrint MsgNoImage]))
  \/ (exists files,
         (files = [] \/ exists b, files = [EvFileWritten output_path b])
         /\ ((exists e,
                 console (MsgFailed e) = None
                 /\ call = (Return None,
                            [sent] ++ files ++ [EvPrint (MsgFailed e)]))
             \/ (exists e e',
                    console (MsgFailed e) = Some e'
                    /\ call = (Raised e', [sent] ++ files))
             \/ (exists x, call = (RaisedBase x, [sent] ++ files)))).
Proof.
  intros K sent output_path call. subst call. unfold run.
  rewrite generate_image_on_with_key by assumption.
  set (body := generate_image_try_on cfg rt console
                 (genai_Client (GEMINI_API_KEY cfg)) style prompt filename).
  assert (Caught : forall e files,
             (files = [] \/ exists b, files = [EvFileWritten output_path b]) ->
             body [] = (Raised e, [sent] ++ files) ->
             exists files0,
               (files0 = [] \/ exists b, files0 = [EvFileWritten output_path b])
               /\ ((exists e0,
                       console (MsgFailed e0) = None
                       /\ try_except body (generate_image_except_on console) []
                          = (Return None,
                             [sent] ++ files0 ++ [EvPrint (MsgFailed e0)]))
                   \/ (exists e0 e',
                          console (MsgFailed e0) = Some e'
                          /\ try_except body (generate_image_except_on console) []
                             = (Raised e', [sent] ++ files0))
                   \/ (exists x,
                          try_except body (generate_image_except_on console) []
                          = (RaisedBase x, [sent] ++ files0)))).
  { intros e files F B. exists files. split; [exact F|].
    rewrite (try_except_on_caught console body [] e _ B).
    destruct (console (MsgFailed e)) as [e'|] eqn:C.
    - right. left. exists e, e'. now split.
    - left. exists e. split; [exact C|]. now rewrite <- app_assoc. }
  destruct (generate_content rt (genai_Client (GEMINI_API_KEY cfg))
              (image_request cfg style prompt)) as [x|response] eqn:G.
  { right. right.
    pose proof (generate_image_try_on_raised cfg rt console _ style prompt filename
                  x [] G) as B.
    fold body in B. cbn [app] in B. fold sent in B.
    destruct x as [e|x]; cbn [raise_any] in B.
    - apply (Caught e []); [now left | exact B].
    - exists []. split; [now left|]. right. right. exists x.
      now rewrite (try_except_on_base console body [] x _ B). }
  destruct (response_parts response) as [e|ps] eqn:P.
  { right. right.
    pose proof (generate_image_try_on_no_parts cfg rt console _ style prompt
                  filename response e [] G P) as B.
    fold body in B. cbn [app] in B. fold sent in B.
    apply (Caught e []); [now left | exact B]. }
  pose proof (generate_image_try_on_parts cfg rt console _ style prompt filename
                response ps [] G P) as T.
  fold body in T. cbn [app] in T. fold sent in T.
  destruct (scan_parts_on_cases cfg rt console filename ps [sent])
    as [(png & C & E) | [(C & E) | (files & F & [(e & E) | (x & E)])]];
    rewrite <- T in E.
  - left. exists png. split; [exact C|]. unfold try_except. now rewrite E.
  - right. left. split; [exact C|]. unfold try_except. now rewrite E.
  - right. right. now apply (Caught e files).
  - right. right. exists files. split; [exact F|]. right. right. exists x.
    now rewrite (try_except_on_base console body [] x _ E).
Qed.

(** A path that is returned is the output path. *)
Lemma generate_image_on_returned_path cfg rt console prompt filename style p :
  fst (run (generate_image_on cfg rt console prompt filename style))
  = Return (Some p) ->
  p = output_path_of cfg filename.
Proof.
  destruct (key_present (GEMINI_API_KEY cfg)) eqn:K.
  - destruct (generate_image_on_cases cfg rt console prompt filename style K)
      as [(png & _ & E)
         | [(_ & E)
           | (files & _ & [(e & _ & E) | [(e & e' & _ & E) | (x & E)]])]];
      rewrite E; cbn [fst]; intros H; congruence.
  - unfold run. rewrite generate_image_on_no_key by exact K. discriminate.
Qed.

Lemma generate_image_returned_path cfg rt prompt filename style p :
  fst (run (generate_image cfg rt prompt filename style)) = Return (Some p) ->
  p = output_path_of cfg filename.
Proof. apply generate_image_on_returned_path. Qed.

(** ** Claims on the image-generation call *)

(** C3, as stated, fails: the handler is [except Exception], so a
    [KeyboardInterrupt] raised while the request waits on the network is
    not caught and reaches the caller. *)
Lemma C3_KeyboardInterrupt_reaches_caller :
  run (generate_image demo_cfg (mock_rt (inl (OfBase KeyboardInterrupt)) true)
         (lit "a lake") (lit "2026-01-14-lake") default_style)
  = (RaisedBase KeyboardInterrupt,
     [EvRequest (genai_Client (GEMINI_API_KEY demo_cfg))
        (image_request demo_cfg default_style (lit "a lake"))]).
Proof. reflexivity. Qed.

(** C3, amended.  With the client built, every instance of [Exception]
    raised inside the [try] statement of [generate_image] is caught and
    handled in one and the same way, whatever raised it: the handler prints
    the failure line and the call returns [None]; only when printing that
    line raises does an exception reach the caller, and it is the one of
    the print.  This holds when [generate_content] raises (network), when
    the response has no candidates, content or parts, when the part's
    payload cannot be reached or decoded (decoding), and when saving the
    file raises (write), in which case what the failed save left at the
    path is on record.  On a console that takes the failure line no
    instance of [Exception] reaches the caller.  An exception that does not
    derive from [Exception], raised by the request or by the save, is not
    caught and goes on to the caller. *)
Theorem C3_Exception_instances_return_None cfg rt console prompt filename style :
  key_present (GEMINI_API_KEY cfg) = true ->
  let client := genai_Client (GEMINI_API_KEY cfg) in
  let req := image_request cfg style prompt in
  let call := run (generate_image_on cfg rt console prompt filename style) in
  let output_path := PathDiv (IMAGES_DIR cfg) (filename ++ lit ".png") in
  let handled e t :=
    match console (MsgFailed e) with
    | None => (Return None, t ++ [EvPrint (MsgFailed e)])
    | Some e' => (Raised e', t)
    end in
  (forall e t',
      generate_image_try_on cfg rt console client style prompt filename []
      = (Raised e, t') ->
      call = handled e t')
  /\ (forall b t',
        generate_image_try_on cfg rt console client style prompt filename []
        = (RaisedBase b, t') ->
        call = (RaisedBase b, t'))
  /\ ((forall e, console (MsgFailed e) = None) -> forall e, fst call <> Raised e)
  /\ (forall e,
        generate_content rt client req = inl (OfException e) ->
        call = handled e [EvRequest client req])
  /\ (forall b,
        generate_content rt client req = inl (OfBase b) ->
        call = (RaisedBase b, [EvRequest client req]))
  /\ (forall response e,
        generate_content rt client req = inr response ->
        response_parts response = inl e ->
        call = handled e [EvRequest client req])
  /\ (forall response pre part post,
        generate_content rt client req = inr response ->
        response_parts response = inr (pre ++ part :: post) ->
        (forall p, In p pre -> image_bearing p = false) ->
        image_bearing part = true ->
        (forall e,
            inline_bytes part = inl e
            \/ (exists d, inline_bytes part = inr d
                  /\ image_open rt (BytesIO d) = inl e) ->
            call = handled e [EvRequest client req])
        /\ (forall d img failure,
              inline_bytes part = inr d ->
              image_open rt (BytesIO d) = inr img ->
              image_save rt img output_path = inl failure ->
              let left :=
                match left_behind failure with
                | Some b => [EvFileWritten output_path b]
                | None => []
                end in
              match save_raised failure with
              | OfException e => call = handled e ([EvRequest client req] ++ left)
              | OfBase b => call = (RaisedBase b, [EvRequest client req] ++ left)
              end)).
Proof.
  intros K client req call output_path handled.
  subst call output_path handled. unfold run.
  rewrite (generate_image_on_with_key cfg rt console prompt filename style [] K).
  fold client.
  set (body := generate_image_try_on cfg rt console client style prompt filename).
  split; [intros e t' B; now apply try_except_on_caught|].
  split; [intros b t' B; now apply try_except_on_base|].
  split.
  { intros C e. unfold try_except.
    destruct (body []) as [[a|e0|b] t'] eqn:B; try discriminate.
    rewrite generate_image_except_on_run, C. discriminate. }
  split.
  { intros e G. apply try_except_on_caught.
    exact (generate_image_try_on_raised cfg rt console client style prompt filename
             (OfException e) [] G). }
  split.
  { intros b G. apply try_except_on_base.
    exact (generate_image_try_on_raised cfg rt console client style prompt filename
             (OfBase b) [] G). }
  split.
  { intros response e G P. apply try_except_on_caught.
    exact (generate_image_try_on_no_parts cfg rt console client style prompt
             filename response e [] G P). }
  intros response pre part post G P Hpre Hpart.
  assert (E : body [] = save_part_on cfg rt console filename part [EvRequest client req]).
  { subst body.
    rewrite (generate_image_try_on_parts _ _ _ _ _ _ _ _ _ _ G P).
    now rewrite scan_parts_on_first by assumption. }
  split.
  - intros e Hcause. apply try_except_on_caught.
    rewrite E. now apply save_part_on_raises.
  - intros d img failure D O S. cbv zeta.
    pose proof (save_part_on_save_raises cfg rt console filename part d img failure
                  [EvRequest client req] D O S) as R.
    unfold output_path_of in R. rewrite <- E in R.
    destruct (save_raised failure) as [e|b]; cbn [raise_any] in R.
    + now apply try_except_on_caught.
    + now apply try_except_on_base.
Qed.

(** C4.  When the API key is absent or empty, [get_client] raises the
    configuration error, and [generate_image] and the two builders let it
    through to their caller, with nothing added to the trace: no request
    has been sent. *)
Theorem C4_missing_key_raises cfg rt :
  GEMINI_API_KEY cfg = None \/ GEMINI_API_KEY cfg = Some [] ->
  let err :=
    ValueError (lit "GEMINI_API_KEY not found. Please set it in your .env file.") in
  (forall t, get_client cfg t = (Raised err, t))
  /\ (forall prompt filename style t,
        generate_image cfg rt prompt filename style t = (Raised err, t))
  /\ (forall topic date custom t,
        generate_blog_header_image cfg rt topic date custom t = (Raised err, t))
  /\ (forall word translation date t,
        generate_vocabulary_card_image cfg rt word translation date t
        = (Raised err, t))
  /\ (forall prompt filename style,
        requests_of (snd (run (generate_image cfg rt prompt filename style))) = []).
Proof.
  intros H err.
  assert (K : key_present (GEMINI_API_KEY cfg) = false)
    by (destruct H as [-> | ->]; reflexivity).
  repeat split; intros.
  - unfold get_client. now rewrite K.
  - now apply generate_image_no_key.
  - now apply generate_image_no_key.
  - now apply generate_image_no_key.
  - unfold run. now rewrite generate_image_no_key.
Qed.

(** C5.  When no part of the response passes the inline-data test, the call
    returns [None]; the trace holds the request and the printed line, and no
    file has been written. *)
Theorem C5_no_image_part cfg rt prompt filename style response ps :
  key_present (GEMINI_API_KEY cfg) = true ->
  generate_content rt (genai_Client (GEMINI_API_KEY cfg))
    (image_request cfg style prompt) = inr response ->
  response_parts response = inr ps ->
  (forall p, In p ps -> image_bearing p = false) ->
  run (generate_image cfg rt prompt filename style)
  = (Return None,
     [EvRequest (genai_Client (GEMINI_API_KEY cfg)) (image_request cfg style prompt);
      EvPrint MsgNoImage])
  /\ files_written (snd (run (generate_image cfg rt prompt filename style))) = [].
Proof.
  intros K G P Hps.
  assert (E : run (generate_image cfg rt prompt filename style)
    = (Return None,
       [EvRequest (genai_Client (GEMINI_API_KEY cfg)) (image_request cfg style prompt);
        EvPrint MsgNoImage])).
  { unfold run. rewrite generate_image_with_key by assumption.
    unfold try_except.
    rewrite (generate_image_try_parts _ _ _ _ _ _ _ _ _ G P).
    rewrite scan_parts_none by assumption. reflexivity. }
  split; [exact E | now rewrite E].
Qed.

(** C6, as stated, fails: a response whose first image-bearing part holds
    bytes the decoder rejects, or one met while the disk refuses the file,
    gives [None] and no file, although a part carries inline data. *)
Lemma C6_image_part_without_file :
  (image_bearing (blob_part demo_garbage) = true
   /\ run (generate_image demo_cfg
             (mock_rt (inr (response_of_parts [blob_part demo_garbage])) true)
             (lit "a lake") (lit "2026-01-14-lake") default_style)
      = (Return None,
         [EvRequest (genai_Client (GEMINI_API_KEY demo_cfg))
            (image_request demo_cfg default_style (lit "a lake"));
          EvPrint (MsgFailed (ImageError (lit "cannot identify image file")))]))
  /\ (image_bearing (blob_part demo_png) = true
      /\ run (generate_image demo_cfg
                (mock_rt (inr (response_of_parts [blob_part demo_png])) false)
                (lit "a lake") (lit "2026-01-14-lake") default_style)
         = (Return None,
            [EvRequest (genai_Client (GEMINI_API_KEY demo_cfg))
               (image_request demo_cfg default_style (lit "a lake"));
             EvPrint (MsgFailed (OSError (lit "No such file or directory")))])).
Proof. repeat split. Qed.

(** C6, amended.  When the response has a part that passes the inline-data
    test, the call runs on the first such part alone: the parts before it
    are passed over and those after it play no role.  If that part's bytes
    decode and the save succeeds, exactly one file is written, at
    [IMAGES_DIR / (filename + ".png")], holding the PNG made from those
    bytes, and that path is returned. *)
Theorem C6_first_image_part_saved cfg rt prompt filename style response pre part post :
  key_present (GEMINI_API_KEY cfg) = true ->
  generate_content rt (genai_Client (GEMINI_API_KEY cfg))
    (image_request cfg style prompt) = inr response ->
  response_parts response = inr (pre ++ part :: post) ->
  (forall p, In p pre -> image_bearing p = false) ->
  image_bearing part = true ->
  let client := genai_Client (GEMINI_API_KEY cfg) in
  let req := image_request cfg style prompt in
  let output_path := PathDiv (IMAGES_DIR cfg) (filename ++ lit ".png") in
  run (generate_image cfg rt prompt filename style)
  = try_except (save_part cfg rt filename part) generate_image_except
      [EvRequest client req]
  /\ (forall d img png,
        inline_bytes part = inr d ->
        image_open rt (BytesIO d) = inr img ->
        image_save rt img output_path = inr png ->
        run (generate_image cfg rt prompt filename style)
        = (Return (Some output_path),
           [EvRequest client req; EvFileWritten output_path png;
            EvPrint (MsgSaved output_path)])
        /\ files_written (snd (run (generate_image cfg rt prompt filename style)))
           = [(output_path, png)]).
Proof.
  intros K G P Hpre Hpart client req output_path.
  assert (E : run (generate_image cfg rt prompt filename style)
              = try_except (save_part cfg rt filename part) generate_image_except
                  [EvRequest client req]).
  { unfold run. rewrite generate_image_with_key by assumption.
    unfold try_except.
    rewrite (generate_image_try_parts _ _ _ _ _ _ _ _ _ G P).
    now rewrite scan_parts_first by assumption. }
  split; [exact E|].
  intros d img png D O S.
  assert (E' : run (generate_image cfg rt prompt filename style)
               = (Return (Some output_path),
                  [EvRequest client req; EvFileWritten output_path png;
                   EvPrint (MsgSaved output_path)])).
  { rewrite E. unfold try_except.
    now rewrite (save_part_ok cfg rt filename part d img png _ D O S). }
  split; [exact E' | now rewrite E'].
Qed.

(** C10.  A part whose [inline_data] attribute exists but is falsy ([None],
    or an empty [bytes]) fails the test and is treated as a part without the
    attribute, or as no part at all: the loop, and the whole call, give the
    same outcome and the same trace.  The parts that pass the test are those
    whose attribute exists and is truthy. *)
Theorem C10_falsy_inline_data_skipped cfg rt prompt filename style pre part post v :
  inline_data part = Some v ->
  truthy v = false ->
  let bare := {| inline_data := None; text := text part |} in
  image_bearing part = false
  /\ scan_parts cfg rt filename (pre ++ part :: post)
     = scan_parts cfg rt filename (pre ++ bare :: post)
  /\ scan_parts cfg rt filename (pre ++ part :: post)
     = scan_parts cfg rt filename (pre ++ post)
  /\ run (generate_image cfg
            (answering rt (response_of_parts (pre ++ part :: post)))
            prompt filename style)
     = run (generate_image cfg
              (answering rt (response_of_parts (pre ++ bare :: post)))
              prompt filename style)
  /\ truthy PyNone = false
  /\ truthy (PyBytes []) = false
  /\ (forall p, image_bearing p = true
                <-> exists w, inline_data p = Some w /\ truthy w = true).
Proof.
  intros I T bare.
  assert (B : image_bearing part = false) by (unfold image_bearing; now rewrite I).
  assert (S1 : forall r : Runtime,
             scan_parts cfg r filename (pre ++ part :: post)
             = scan_parts cfg r filename (pre ++ post)).
  { intros r. rewrite (scan_parts_filter cfg r filename (pre ++ part :: post)).
    rewrite (scan_parts_filter cfg r filename (pre ++ post)).
    rewrite !filter_app. simpl. now rewrite B. }
  assert (S2 : forall r : Runtime,
             scan_parts cfg r filename (pre ++ bare :: post)
             = scan_parts cfg r filename (pre ++ post)).
  { intros r. rewrite (scan_parts_filter cfg r filename (pre ++ bare :: post)).
    rewrite (scan_parts_filter cfg r filename (pre ++ post)).
    rewrite !filter_app. reflexivity. }
  split; [exact B|].
  split; [now rewrite S1, S2|].
  split; [apply S1|].
  split.
  - unfold run, generate_image, generate_image_on, bind.
    destruct (get_client cfg []) as [[client|e|b] t];
      [|reflexivity|reflexivity].
    unfold try_except, generate_image_try_on, call_generate_content, bind, emit,
      lift_any, lift, ret. simpl.
    unfold scan_parts in S1, S2. now rewrite S1, S2.
  - repeat split; try apply image_bearing_iff.
Qed.

(** A [Blob] is an object and passes the test whatever it holds: a part with
    an empty payload inside a [Blob] is not skipped. *)
Remark empty_blob_is_image_bearing :
  image_bearing
    {| inline_data := Some (PyBlob {| data := Some []; mime_type := None |});
       text := None |} = true.
Proof. reflexivity. Qed.

(** ** The slug *)

Lemma re_sub_runs_chars (in_run : bool) (s : pystr) :
  forallb slug_char
    (re_sub_runs (fun c => negb (is_az09 c)) [HYPHEN] in_run s) = true.
Proof.
  revert in_run. induction s as [|c s IH]; intros in_run; simpl; [reflexivity|].
  destruct (is_az09 c) eqn:E; simpl.
  - unfold slug_char at 1. rewrite E. simpl. apply IH.
  - destruct in_run; simpl; apply IH.
Qed.

Lemma az09_not_hyphen (c : codepoint) : is_az09 c = true -> (c =? HYPHEN) = false.
Proof.
  unfold is_az09, HYPHEN. intros H. apply N.eqb_neq. intros ->. discriminate H.
Qed.

Lemma single_hyphens_cons (c : codepoint) (s : pystr) :
  (c =? HYPHEN) && starts_with_hyphen s = false ->
  single_hyphens s = true ->
  single_hyphens (c :: s) = true.
Proof.
  destruct s as [|b s]; [reflexivity|]. simpl. intros -> ->. reflexivity.
Qed.

Lemma re_sub_runs_single (in_run : bool) (s : pystr) :
  single_hyphens (re_sub_runs (fun c => negb (is_az09 c)) [HYPHEN] in_run s) = true
  /\ (in_run = true ->
      starts_with_hyphen
        (re_sub_runs (fun c => negb (is_az09 c)) [HYPHEN] in_run s) = false).
Proof.
  revert in_run. induction s as [|c s IH]; intros in_run; [now split|].
  cbn [re_sub_runs]. destruct (is_az09 c) eqn:E; cbn [negb].
  - pose proof (az09_not_hyphen c E) as Hc. split.
    + apply single_hyphens_cons; [now rewrite Hc | apply IH].
    + intros _. exact Hc.
  - destruct in_run; cbn [app].
    + apply IH.
    + split; [|discriminate].
      apply single_hyphens_cons; [|apply IH].
      rewrite (proj2 (IH true) eq_refl). apply andb_false_r.
Qed.

(** Stripping and slicing keep a contiguous piece of the string. *)
Lemma str_lstrip_skipn chars (s : pystr) :
  exists k, str_lstrip chars s = skipn k s.
Proof.
  induction s as [|c s (k & IH)]; simpl.
  - now exists 0%nat.
  - destruct (chars c); [now exists (S k) | now exists 0%nat].
Qed.

Lemma str_rstrip_firstn chars (s : pystr) :
  exists k, str_rstrip chars s = firstn k s.
Proof.
  unfold str_rstrip. destruct (str_lstrip_skipn chars (rev s)) as (k & ->).
  exists (List.length s - k)%nat.
  rewrite skipn_rev. apply rev_involutive.
Qed.

Lemma single_hyphens_tail (c : codepoint) (s : pystr) :
  single_hyphens (c :: s) = true -> single_hyphens s = true.
Proof.
  destruct s as [|b s]; [reflexivity|]. simpl. intros H.
  now apply andb_prop in H.
Qed.

Lemma single_hyphens_skipn (k : nat) (s : pystr) :
  single_hyphens s = true -> single_hyphens (skipn k s) = true.
Proof.
  revert s. induction k as [|k IH]; intros s H; [exact H|].
  destruct s as [|c s]; [reflexivity|]. simpl.
  apply IH. now apply single_hyphens_tail with c.
Qed.

Lemma single_hyphens_firstn (k : nat) (s : pystr) :
  single_hyphens s = true -> single_hyphens (firstn k s) = true.
Proof.
  revert s. induction k as [|k IH]; intros s H; [reflexivity|].
  destruct s as [|a s]; [reflexivity|].
  pose proof (IH s (single_hyphens_tail a s H)) as IHs.
  destruct s as [|b s]; [destruct k; reflexivity|].
  destruct k as [|k]; [reflexivity|].
  simpl in H. apply andb_prop in H. destruct H as [Hab _].
  change (firstn (S (S k)) (a :: b :: s)) with (a :: firstn (S k) (b :: s)).
  apply single_hyphens_cons; [|exact IHs].
  simpl. now apply negb_true_iff in Hab.
Qed.

Lemma forallb_firstn {A} (f : A -> bool) (k : nat) (l : list A) :
  forallb f l = true -> forallb f (firstn k l) = true.
Proof.
  revert l. induction k as [|k IH]; intros [|a l] H; simpl; try reflexivity.
  simpl in H. apply andb_prop in H. destruct H as [-> H]. now apply IH.
Qed.

Lemma forallb_skipn {A} (f : A -> bool) (k : nat) (l : list A) :
  forallb f l = true -> forallb f (skipn k l) = true.
Proof.
  revert l. induction k as [|k IH]; intros [|a l] H; simpl; try reflexivity.
  - exact H.
  - simpl in H. apply andb_prop in H. destruct H as [_ H]. now apply IH.
Qed.

Lemma str_lstrip_head (s : pystr) :
  starts_with_hyphen (str_lstrip (N.eqb HYPHEN) s) = false.
Proof.
  induction s as [|c s IH]; [reflexivity|].
  cbn [str_lstrip]. destruct (HYPHEN =? c) eqn:E; [exact IH|].
  cbn [starts_with_hyphen]. now rewrite N.eqb_sym.
Qed.

Lemma starts_with_hyphen_firstn (k : nat) (s : pystr) :
  starts_with_hyphen s = false -> starts_with_hyphen (firstn k s) = false.
Proof. destruct k, s; simpl; auto. Qed.

Lemma str_rstrip_tail (s : pystr) :
  ends_with_hyphen (str_rstrip (N.eqb HYPHEN) s) = false.
Proof.
  unfold ends_with_hyphen, str_rstrip. rewrite rev_involutive.
  apply str_lstrip_head.
Qed.

(** What holds of every slug: its characters, its hyphens one at a time, no
    hyphen in front, at most 30 characters. *)
Lemma slug_shape (tbl : case_table) (topic : pystr) :
  forallb slug_char (slug tbl topic) = true
  /\ single_hyphens (slug tbl topic) = true
  /\ starts_with_hyphen (slug tbl topic) = false
  /\ (List.length (slug tbl topic) <= 30)%nat.
Proof.
  unfold slug, slice_to, str_strip, re_sub_class_plus.
  set (r := re_sub_runs _ _ false (str_lower tbl topic)).
  pose proof (str_lstrip_head r) as Hhead.
  destruct (str_lstrip_skipn (N.eqb HYPHEN) r) as (k1 & E1).
  destruct (str_rstrip_firstn (N.eqb HYPHEN) (str_lstrip (N.eqb HYPHEN) r))
    as (k2 & E2).
  rewrite E2. repeat split.
  - apply forallb_firstn, forallb_firstn. rewrite E1.
    apply forallb_skipn, re_sub_runs_chars.
  - apply single_hyphens_firstn, single_hyphens_firstn. rewrite E1.
    apply single_hyphens_skipn, re_sub_runs_single.
  - now apply starts_with_hyphen_firstn, starts_with_hyphen_firstn.
  - apply firstn_le_length.
Qed.

(** A slug that the slice leaves whole has no hyphen at its end either. *)
Lemma slug_short_no_trailing_hyphen (tbl : case_table) (topic : pystr) :
  (List.length (str_strip (N.eqb HYPHEN)
             (re_sub_class_plus (fun c => negb (is_az09 c)) [HYPHEN]
                (str_lower tbl topic))) <= 30)%nat ->
  well_formed_slug (slug tbl topic) = true.
Proof.
  intros L. destruct (slug_shape tbl topic) as (C & S & H & Len).
  unfold well_formed_slug. rewrite C, S, H. simpl.
  apply andb_true_intro. split; [|now apply Nat.leb_le].
  apply negb_true_iff. unfold slug, slice_to.
  rewrite firstn_all2 by exact L. apply str_rstrip_tail.
Qed.

(** C2.  The slug of "Finnish Greetings!!" is "finnish-greetings", but the
    slice to 30 characters comes after the hyphens are stripped: the slug
    of "Finnish Greetings and Weather Words" is cut right behind a hyphen
    and ends with it. *)
Theorem C2_slug_cut_behind_hyphen (tbl : case_table) :
  slug tbl (lit "Finnish Greetings and Weather Words")
  = lit "finnish-greetings-and-weather-"
  /\ ends_with_hyphen (slug tbl (lit "Finnish Greetings and Weather Words")) = true
  /\ well_formed_slug (slug tbl (lit "Finnish Greetings and Weather Words")) = false
  /\ slug tbl (lit "Finnish Greetings!!") = lit "finnish-greetings"
  /\ well_formed_slug (slug tbl (lit "Finnish Greetings!!")) = true.
Proof. repeat split; vm_compute; reflexivity. Qed.

(** ** Lower-casing *)

Lemma lower_from_ascii (tbl : case_table) (before s : pystr) :
  forallb is_ascii s = true -> lower_from tbl before s = List.map ascii_lower s.
Proof.
  revert before. induction s as [|c s IH]; intros before H; [reflexivity|].
  simpl in H. apply andb_prop in H. destruct H as [Hc Hs].
  cbn [lower_from List.map]. unfold lower_cp. rewrite Hc.
  now rewrite IH.
Qed.

Lemma lower_cp_ascii_fixed (tbl : case_table) before c after :
  is_ascii c = true -> is_upper_ascii c = false ->
  lower_cp tbl before c after = [c].
Proof. intros A U. unfold lower_cp, ascii_lower. now rewrite A, U. Qed.

(** ** The requests of a run *)

Lemma requests_of_app (t u : trace) :
  requests_of (t ++ u) = requests_of t ++ requests_of u.
Proof. unfold requests_of. apply flat_map_app. Qed.

(** With a key, a call sends one request, which carries the template filled
    with the style and the description. *)
Lemma generate_image_on_requests cfg rt console prompt filename style :
  key_present (GEMINI_API_KEY cfg) = true ->
  requests_of (snd (run (generate_image_on cfg rt console prompt filename style)))
  = [image_request cfg style prompt].
Proof.
  intros K.
  destruct (generate_image_on_cases cfg rt console prompt filename style K)
    as [(png & _ & E)
       | [(_ & E)
         | (files & F & [(e & _ & E) | [(e & e' & _ & E) | (x & E)]])]];
    rewrite E; cbn [snd]; try reflexivity;
    destruct F as [-> | (b & ->)]; reflexivity.
Qed.

Lemma generate_image_requests cfg rt prompt filename style :
  key_present (GEMINI_API_KEY cfg) = true ->
  requests_of (snd (run (generate_image cfg rt prompt filename style)))
  = [image_request cfg style prompt].
Proof. apply generate_image_on_requests. Qed.

(** The two builders are calls of [generate_image]. *)
Lemma generate_blog_header_image_call cfg rt topic date custom :
  generate_blog_header_image cfg rt topic date custom
  = generate_image cfg rt (header_prompt topic custom)
      (header_filename rt topic date) default_style.
Proof. reflexivity. Qed.

Lemma generate_vocabulary_card_image_call cfg rt word translation date :
  generate_vocabulary_card_image cfg rt word translation date
  = generate_image cfg rt (vocabulary_prompt word translation)
      (vocabulary_filename rt word date) (lit "simple icon illustration").
Proof. reflexivity. Qed.

(** ** The code against the words of the specification *)

Lemma firstn_length_app {A} (l l' : list A) : firstn (List.length l) (l ++ l') = l.
Proof.
  rewrite firstn_app, firstn_all, Nat.sub_diag. cbn [firstn]. apply app_nil_r.
Qed.

Lemma skipn_S_length_app {A} (l l' : list A) (a : A) :
  skipn (S (List.length l)) (l ++ a :: l') = l'.
Proof.
  rewrite skipn_app, skipn_all2 by lia.
  replace (S (List.length l) - List.length l)%nat with 1%nat by lia. reflexivity.
Qed.

Lemma lowercased_at_middle (tbl : case_table) (before : pystr) c rest :
  lowercased_at tbl (before ++ c :: rest) (List.length before)
  = lower_cp tbl before c rest.
Proof.
  unfold lowercased_at, lower_cp, is_ascii, ascii_lower, is_upper_ascii.
  rewrite nth_middle, firstn_length_app, skipn_S_length_app. reflexivity.
Qed.

(** [str.lower()] as modelled is lower-casing position by position. *)
Lemma lower_from_by_position (tbl : case_table) (before s : pystr) :
  lower_from tbl before s
  = List.concat (List.map (lowercased_at tbl (before ++ s))
              (seq (List.length before) (List.length s))).
Proof.
  revert before. induction s as [|c rest IH]; intros before; [reflexivity|].
  cbn [lower_from List.length seq List.map List.concat].
  rewrite lowercased_at_middle. f_equal.
  rewrite IH. rewrite <- app_assoc. cbn [app].
  rewrite length_app. cbn [List.length]. now rewrite Nat.add_1_r.
Qed.

Lemma str_lower_lowercased (tbl : case_table) (w : pystr) :
  str_lower tbl w = lowercased tbl w.
Proof. unfold str_lower, lowercased. now rewrite lower_from_by_position. Qed.

Lemma lowercased_ascii (tbl : case_table) (w : pystr) :
  forallb (fun c => c <? 128) w = true ->
  lowercased tbl w
  = List.map (fun c => if (65 <=? c) && (c <=? 90) then c + 32 else c) w.
Proof.
  intros A. rewrite <- str_lower_lowercased. unfold str_lower.
  now rewrite lower_from_ascii by exact A.
Qed.

Lemma concat_singletons (w u : pystr) :
  List.concat (List.map (fun i => [nth i (u ++ w) 0])
            (seq (List.length u) (List.length w))) = w.
Proof.
  revert u. induction w as [|a w IH]; intros u; [reflexivity|].
  cbn [List.length seq List.map List.concat app]. rewrite nth_middle. f_equal.
  specialize (IH (u ++ [a])). rewrite <- app_assoc in IH. cbn [app] in IH.
  rewrite length_app in IH. cbn [List.length] in IH.
  now rewrite Nat.add_1_r in IH.
Qed.

(** The pattern substitution as modelled collapses the runs. *)
Lemma drop_repeated_keep (a : codepoint) (l : pystr) :
  (a =? 45) = false ->
  drop_repeated_hyphens (a :: l) = a :: drop_repeated_hyphens l.
Proof. intros H. destruct l as [|b l]; cbn; [|rewrite H]; reflexivity. Qed.

Lemma re_sub_runs_collapsed (s : pystr) :
  re_sub_runs (fun c => negb (is_az09 c)) [HYPHEN] false s = runs_collapsed s
  /\ HYPHEN :: re_sub_runs (fun c => negb (is_az09 c)) [HYPHEN] true s
     = drop_repeated_hyphens (45 :: List.map hyphen_for_other s).
Proof.
  unfold runs_collapsed.
  induction s as [|c s [IH1 IH2]]; [now split|].
  cbn [re_sub_runs List.map]. unfold hyphen_for_other at 1 3.
  fold (is_az09 c). destruct (is_az09 c) eqn:E; cbn [negb app].
  - pose proof (az09_not_hyphen c E) as N. unfold HYPHEN in N.
    rewrite (drop_repeated_keep c _ N). split; [now rewrite IH1|].
    change (drop_repeated_hyphens (45 :: c :: List.map hyphen_for_other s))
      with (if (45 =? 45) && (c =? 45)
            then drop_repeated_hyphens (c :: List.map hyphen_for_other s)
            else 45 :: drop_repeated_hyphens (c :: List.map hyphen_for_other s)).
    rewrite N. cbn [N.eqb Pos.eqb andb].
    rewrite (drop_repeated_keep c _ N). now rewrite IH1.
  - split; [exact IH2|].
    change (drop_repeated_hyphens (45 :: 45 :: List.map hyphen_for_other s))
      with (drop_repeated_hyphens (45 :: List.map hyphen_for_other s)).
    exact IH2.
Qed.

(** Stripping takes hyphens, and only hyphens, off the two ends. *)
Lemma str_lstrip_repeat (s : pystr) :
  exists a, s = repeat HYPHEN a ++ str_lstrip (N.eqb HYPHEN) s.
Proof.
  induction s as [|c s (a & IH)]; [now exists 0%nat|].
  cbn [str_lstrip]. destruct (HYPHEN =? c) eqn:E.
  - apply N.eqb_eq in E. subst c. exists (S a). cbn [repeat app]. now f_equal.
  - now exists 0%nat.
Qed.

Lemma rev_repeat {A} (x : A) (n : nat) : rev (repeat x n) = repeat x n.
Proof.
  induction n as [|n IH]; [reflexivity|].
  cbn [repeat rev]. rewrite IH. symmetry. apply repeat_cons.
Qed.

Lemma str_strip_repeat (s : pystr) :
  exists a b,
    s = repeat HYPHEN a ++ str_strip (N.eqb HYPHEN) s ++ repeat HYPHEN b.
Proof.
  unfold str_strip, str_rstrip.
  destruct (str_lstrip_repeat s) as (a & Ea).
  set (l := str_lstrip (N.eqb HYPHEN) s) in *.
  destruct (str_lstrip_repeat (rev l)) as (b & Eb).
  exists a, b. rewrite Ea at 1. f_equal.
  rewrite <- (rev_involutive l) at 1. rewrite Eb at 1.
  now rewrite rev_app_distr, rev_repeat.
Qed.

Lemma str_strip_ends (s : pystr) :
  (forall r, str_strip (N.eqb HYPHEN) s <> HYPHEN :: r)
  /\ (forall r, str_strip (N.eqb HYPHEN) s <> r ++ [HYPHEN]).
Proof.
  split; intros r E.
  - assert (H : starts_with_hyphen (str_strip (N.eqb HYPHEN) s) = false).
    { unfold str_strip.
      destruct (str_rstrip_firstn (N.eqb HYPHEN) (str_lstrip (N.eqb HYPHEN) s))
        as (k & ->).
      apply starts_with_hyphen_firstn, str_lstrip_head. }
    rewrite E in H. discriminate H.
  - pose proof (str_rstrip_tail (str_lstrip (N.eqb HYPHEN) s)) as H.
    fold (str_strip (N.eqb HYPHEN) s) in H. rewrite E in H.
    unfold ends_with_hyphen in H. rewrite rev_app_distr in H. discriminate H.
Qed.

(** The slug in the words of the specification: the lower-cased topic with
    its runs collapsed, without the hyphens at its two ends, cut to 30. *)
Lemma slug_in_words (tbl : case_table) (topic : pystr) :
  exists a b T,
    runs_collapsed (lowercased tbl topic)
    = repeat HYPHEN a ++ T ++ repeat HYPHEN b
    /\ (forall r, T <> HYPHEN :: r)
    /\ (forall r, T <> r ++ [HYPHEN])
    /\ slug tbl topic = firstn 30 T.
Proof.
  unfold slug, slice_to, re_sub_class_plus.
  rewrite (proj1 (re_sub_runs_collapsed _)), str_lower_lowercased.
  destruct (str_strip_repeat (runs_collapsed (lowercased tbl topic)))
    as (a & b & E).
  exists a, b, (str_strip (N.eqb HYPHEN) (runs_collapsed (lowercased tbl topic))).
  destruct (str_strip_ends (runs_collapsed (lowercased tbl topic))) as [H1 H2].
  repeat split; assumption.
Qed.

(** ** Claims on the two builders *)

(** C1, as stated, fails: the text sent is the template of [generate_image]
    around the custom prompt, not the custom prompt itself. *)
Lemma C1_request_is_not_the_custom_prompt :
  exists r,
    requests_of
      (snd (run (generate_blog_header_image demo_cfg demo_rt
                   (lit "Finnish Greetings") (lit "2026-01-14")
                   (Some (lit "People greeting each other in Finland")))))
    = [r]
    /\ contents r <> lit "People greeting each other in Finland".
Proof.
  eexists. split; [vm_compute; reflexivity|].
  vm_compute. discriminate.
Qed.

(** C1, amended.  With a non-empty custom prompt, the description the
    builder hands on is exactly the custom prompt, and the one request sent
    carries it, word for word, inside the fixed template of
    [generate_image] with the default style.  The default description of
    the builder is not used: the request is the same for every topic.  An
    empty custom prompt counts as none. *)
Theorem C1_custom_prompt_inside_template cfg rt topic date custom :
  key_present (GEMINI_API_KEY cfg) = true ->
  custom <> [] ->
  header_prompt topic (Some custom) = custom
  /\ requests_of
       (snd (run (generate_blog_header_image cfg rt topic date (Some custom))))
     = [ {| model := IMAGE_MODEL cfg;
            contents :=
              lit "Create a modern flat illustration for a Finnish language learning blog."
              ++ NL ++ NL
              ++ lit "Image description: " ++ custom ++ NL
              ++ NL
              ++ lit "Requirements:" ++ NL
              ++ lit "- Clean, professional design suitable for educational content"
              ++ NL
              ++ lit "- Warm, inviting colors (consider Finnish nature: blues, greens, whites)"
              ++ NL
              ++ lit "- No text in the image (text will be added separately)" ++ NL
              ++ lit "- Simple composition that works well as a blog header" ++ NL
              ++ lit "- Modern, minimalist aesthetic" ++ NL;
            config := {| response_modalities := [lit "image"; lit "text"] |} |} ]
  /\ (forall topic',
        requests_of
          (snd (run (generate_blog_header_image cfg rt topic' date (Some custom))))
        = requests_of
            (snd (run (generate_blog_header_image cfg rt topic date (Some custom)))))
  /\ header_prompt topic (Some []) = default_header_prompt topic.
Proof.
  intros K N.
  assert (P : forall tp, header_prompt tp (Some custom) = custom)
    by (intros tp; destruct custom; [contradiction | reflexivity]).
  assert (R : forall tp,
             requests_of
               (snd (run (generate_blog_header_image cfg rt tp date (Some custom))))
             = [image_request cfg default_style custom]).
  { intros tp. rewrite generate_blog_header_image_call.
    rewrite generate_image_requests by assumption. now rewrite P. }
  repeat split.
  - apply P.
  - rewrite R. reflexivity.
  - intros tp. now rewrite !R.
Qed.

(** C7.  The builder of the blog header calls [generate_image] with the
    file name made of the date, a hyphen and the slug of the topic: the
    topic in lower case, its runs of other characters collapsed to single
    hyphens, without the hyphens at its two ends, cut to 30 characters.  A
    path the builder returns is that name with ".png" under [IMAGES_DIR].
    For "2026-01-14" and "Finnish Greetings" the name is
    "2026-01-14-finnish-greetings". *)
Theorem C7_header_filename cfg rt topic date custom :
  (exists a b T,
      runs_collapsed (lowercased (unicode_lower rt) topic)
      = repeat HYPHEN a ++ T ++ repeat HYPHEN b
      /\ (forall r, T <> HYPHEN :: r)
      /\ (forall r, T <> r ++ [HYPHEN])
      /\ header_filename rt topic date = date ++ [HYPHEN] ++ firstn 30 T
      /\ (forall console,
            generate_blog_header_image_on cfg rt console topic date custom
            = generate_image_on cfg rt console (header_prompt topic custom)
                (date ++ [HYPHEN] ++ firstn 30 T) default_style)
      /\ (forall console p,
            fst (run (generate_blog_header_image_on cfg rt console
                        topic date custom))
            = Return (Some p) ->
            p = PathDiv (IMAGES_DIR cfg)
                  (date ++ [HYPHEN] ++ firstn 30 T ++ lit ".png")))
  /\ header_filename rt (lit "Finnish Greetings") (lit "2026-01-14")
     = lit "2026-01-14-finnish-greetings"
  /\ header_filename rt (lit "--Sauna & SISU!!") (lit "2026-01-14")
     = lit "2026-01-14-sauna-sisu"
  /\ header_filename rt (lit "Finnish Greetings and Farewells for Beginners")
       (lit "2026-01-14")
     = lit "2026-01-14-finnish-greetings-and-farewell"
  /\ fst (run (generate_blog_header_image demo_cfg demo_rt
                 (lit "Finnish Greetings") (lit "2026-01-14") None))
     = Return (Some (PathDiv (PathOf (lit "images"))
                       (lit "2026-01-14-finnish-greetings.png"))).
Proof.
  split; [|repeat split].
  destruct (slug_in_words (unicode_lower rt) topic) as (a & b & T & E & H1 & H2 & S).
  exists a, b, T.
  assert (F : header_filename rt topic date = date ++ [HYPHEN] ++ firstn 30 T)
    by (unfold header_filename; now rewrite S).
  repeat split; try assumption.
  - intros console. unfold generate_blog_header_image_on. now rewrite F.
  - intros console p R. unfold generate_blog_header_image_on in R.
    apply generate_image_on_returned_path in R. subst p.
    unfold output_path_of. rewrite F. now rewrite <- !app_assoc.
Qed.

(** C8.  The builder of the vocabulary card calls [generate_image] with the
    file name made of the date, "-vocab-" and the word in lower case, and
    with the style "simple icon illustration", which opens the one request
    of a call.  For "kiitos", also written "Kiitos" or "KIITOS", and
    "2026-01-14" the name is "2026-01-14-vocab-kiitos"; a run that saves the
    image returns the path of that name with ".png" under [IMAGES_DIR]. *)
Theorem C8_vocabulary_card cfg rt word translation date :
  vocabulary_filename rt word date
  = date ++ lit "-vocab-" ++ lowercased (unicode_lower rt) word
  /\ (forallb (fun c => c <? 128) word = true ->
      vocabulary_filename rt word date
      = date ++ lit "-vocab-"
        ++ List.map (fun c => if (65 <=? c) && (c <=? 90) then c + 32 else c) word)
  /\ (forall console,
        generate_vocabulary_card_image_on cfg rt console word translation date
        = generate_image_on cfg rt console (vocabulary_prompt word translation)
            (date ++ lit "-vocab-" ++ lowercased (unicode_lower rt) word)
            (lit "simple icon illustration"))
  /\ (forall console,
      key_present (GEMINI_API_KEY cfg) = true ->
      requests_of
        (snd (run (generate_vocabulary_card_image_on cfg rt console
                     word translation date)))
      = [ {| model := IMAGE_MODEL cfg;
             contents :=
               lit "Create a simple icon illustration for a Finnish language learning blog."
               ++ NL ++ NL
               ++ lit "Image description: "
               ++ vocabulary_prompt word translation ++ NL
               ++ NL
               ++ lit "Requirements:" ++ NL
               ++ lit "- Clean, professional design suitable for educational content"
               ++ NL
               ++ lit "- Warm, inviting colors (consider Finnish nature: blues, greens, whites)"
               ++ NL
               ++ lit "- No text in the image (text will be added separately)" ++ NL
               ++ lit "- Simple composition that works well as a blog header" ++ NL
               ++ lit "- Modern, minimalist aesthetic" ++ NL;
             config := {| response_modalities := [lit "image"; lit "text"] |} |} ])
  /\ (forall console p,
        fst (run (generate_vocabulary_card_image_on cfg rt console
                    word translation date))
        = Return (Some p) ->
        p = PathDiv (IMAGES_DIR cfg)
              (date ++ lit "-vocab-" ++ lowercased (unicode_lower rt) word
               ++ lit ".png"))
  /\ vocabulary_filename rt (lit "kiitos") (lit "2026-01-14")
     = lit "2026-01-14-vocab-kiitos"
  /\ vocabulary_filename rt (lit "Kiitos") (lit "2026-01-14")
     = lit "2026-01-14-vocab-kiitos"
  /\ vocabulary_filename rt (lit "KIITOS") (lit "2026-01-14")
     = lit "2026-01-14-vocab-kiitos"
  /\ fst (run (generate_vocabulary_card_image demo_cfg demo_rt
                 (lit "Kiitos") (lit "thank you") (lit "2026-01-14")))
     = Return (Some (PathDiv (PathOf (lit "images"))
                       (lit "2026-01-14-vocab-kiitos.png"))).
Proof.
  assert (F : vocabulary_filename rt word date
              = date ++ lit "-vocab-" ++ lowercased (unicode_lower rt) word)
    by (unfold vocabulary_filename; now rewrite str_lower_lowercased).
  split; [exact F|].
  split; [intros A; rewrite F; now rewrite lowercased_ascii|].
  split; [intros console; unfold generate_vocabulary_card_image_on;
          now rewrite F|].
  split.
  { intros console K. unfold generate_vocabulary_card_image_on.
    rewrite generate_image_on_requests by exact K. reflexivity. }
  split.
  { intros console p R. unfold generate_vocabulary_card_image_on in R.
    apply generate_image_on_returned_path in R. subst p.
    unfold output_path_of. rewrite F. now rewrite <- !app_assoc. }
  repeat split.
Qed.

(** C9.  The vocabulary word is put into the file name lower-cased and
    nothing more: position by position, with no pattern replaced and nothing
    stripped or cut.  In an ASCII word the capitals become small letters and
    every other character stays, so the name is as long as the date, the
    seven characters of "-vocab-" and the word together.  A character that
    lower-casing leaves alone, be it a space, a punctuation mark or a
    character outside ASCII, stands in the name at its place, and a word
    made of such characters only is in the name as it is.  The name is
    handed to [generate_image] without further change. *)
Theorem C9_vocabulary_word_only_lowered cfg rt word translation date :
  vocabulary_filename rt word date
  = date ++ lit "-vocab-" ++ lowercased (unicode_lower rt) word
  /\ (forallb (fun c => c <? 128) word = true ->
      vocabulary_filename rt word date
      = date ++ lit "-vocab-"
        ++ List.map (fun c => if (65 <=? c) && (c <=? 90) then c + 32 else c) word
      /\ List.length (vocabulary_filename rt word date)
         = (List.length date + 7 + List.length word)%nat)
  /\ (forall pre c post,
        word = pre ++ c :: post ->
        ((c <? 128) = true /\ (65 <=? c) && (c <=? 90) = false)
        \/ ((c <? 128) = false /\ unicode_lower rt pre c post = [c]) ->
        vocabulary_filename rt word date
        = date ++ lit "-vocab-"
          ++ List.concat (List.map (lowercased_at (unicode_lower rt) word)
                            (seq 0 (List.length pre)))
          ++ c :: List.concat (List.map (lowercased_at (unicode_lower rt) word)
                                 (seq (S (List.length pre)) (List.length post))))
  /\ ((forall i, (i < List.length word)%nat ->
                 lowercased_at (unicode_lower rt) word i = [nth i word 0]) ->
      vocabulary_filename rt word date = date ++ lit "-vocab-" ++ word)
  /\ (forall console,
        generate_vocabulary_card_image_on cfg rt console word translation date
        = generate_image_on cfg rt console (vocabulary_prompt word translation)
            (date ++ lit "-vocab-" ++ lowercased (unicode_lower rt) word)
            (lit "simple icon illustration")).
Proof.
  assert (F : vocabulary_filename rt word date
              = date ++ lit "-vocab-" ++ lowercased (unicode_lower rt) word)
    by (unfold vocabulary_filename; now rewrite str_lower_lowercased).
  split; [exact F|].
  split.
  { intros A. rewrite F, lowercased_ascii by exact A. split; [reflexivity|].
    rewrite !length_app, length_map.
    assert (L7 : List.length (lit "-vocab-") = 7%nat) by reflexivity.
    rewrite L7. apply Nat.add_assoc. }
  split.
  { intros pre c post -> Kept. rewrite F. do 2 f_equal.
    unfold lowercased. rewrite length_app. cbn [List.length].
    rewrite seq_app, map_app, concat_app. f_equal.
    cbn [seq List.map List.concat Nat.add].
    rewrite lowercased_at_middle. unfold lower_cp, is_ascii, ascii_lower, is_upper_ascii.
    destruct Kept as [[A U] | [A T]]; rewrite A; [rewrite U | rewrite T]; reflexivity. }
  split.
  { intros Kept. rewrite F. do 2 f_equal. unfold lowercased.
    rewrite (map_ext_in _ (fun i => [nth i ([] ++ word) 0])).
    - apply (concat_singletons word []).
    - intros i Hi. apply in_seq in Hi. apply Kept. lia. }
  intros console. unfold generate_vocabulary_card_image_on. now rewrite F.
Qed.

(** ** The claims at concrete inputs *)

Lemma C1_custom_prompt_inside_template_witness :
  key_present (GEMINI_API_KEY demo_cfg) = true
  /\ lit "People greeting each other in Finland" <> []
  /\ header_prompt (lit "Finnish Greetings")
       (Some (lit "People greeting each other in Finland"))
     = lit "People greeting each other in Finland".
Proof.
  assert (K : key_present (GEMINI_API_KEY demo_cfg) = true) by reflexivity.
  assert (N : lit "People greeting each other in Finland" <> [])
    by (vm_compute; discriminate).
  split; [exact K|]. split; [exact N|].
  exact (proj1 (C1_custom_prompt_inside_template demo_cfg demo_rt
                  (lit "Finnish Greetings") (lit "2026-01-14")
                  (lit "People greeting each other in Finland") K N)).
Defined.

Lemma C3_Exception_instances_return_None_witness :
  key_present (GEMINI_API_KEY demo_cfg) = true
  /\ run (generate_image_on demo_cfg
            (mock_rt (inl (OfException (ServiceError (lit "503 unavailable")))) true)
            working_console
            (lit "a lake") (lit "2026-01-14-lake") default_style)
     = (Return None,
        [EvRequest (genai_Client (GEMINI_API_KEY demo_cfg))
           (image_request demo_cfg default_style (lit "a lake"));
         EvPrint (MsgFailed (ServiceError (lit "503 unavailable")))]).
Proof.
  assert (K : key_present (GEMINI_API_KEY demo_cfg) = true) by reflexivity.
  split; [exact K|].
  destruct (C3_Exception_instances_return_None demo_cfg
              (mock_rt (inl (OfException (ServiceError (lit "503 unavailable"))))
                 true)
              working_console
              (lit "a lake") (lit "2026-01-14-lake") default_style K)
    as (_ & _ & _ & H & _).
  exact (H (ServiceError (lit "503 unavailable")) eq_refl).
Defined.

Lemma C4_missing_key_raises_witness :
  GEMINI_API_KEY nokey_cfg = None
  /\ run (generate_image nokey_cfg demo_rt (lit "a lake") (lit "2026-01-14-lake")
            default_style)
     = (Raised
          (ValueError
             (lit "GEMINI_API_KEY not found. Please set it in your .env file.")),
        []).
Proof.
  split; [reflexivity|].
  destruct (C4_missing_key_raises nokey_cfg demo_rt (or_introl eq_refl))
    as (_ & H & _).
  exact (H (lit "a lake") (lit "2026-01-14-lake") default_style []).
Defined.

Lemma C5_no_image_part_witness :
  run (generate_image demo_cfg
         (mock_rt (inr (response_of_parts [text_part (lit "I cannot draw this.")]))
            true)
         (lit "a lake") (lit "2026-01-14-lake") default_style)
  = (Return None,
     [EvRequest (genai_Client (GEMINI_API_KEY demo_cfg))
        (image_request demo_cfg default_style (lit "a lake"));
      EvPrint MsgNoImage]).
Proof.
  refine (proj1 (C5_no_image_part demo_cfg
                   (mock_rt
                      (inr (response_of_parts [text_part (lit "I cannot draw this.")]))
                      true)
                   (lit "a lake") (lit "2026-01-14-lake") default_style
                   (response_of_parts [text_part (lit "I cannot draw this.")])
                   [text_part (lit "I cannot draw this.")]
                   eq_refl eq_refl eq_refl _)).
  intros p [<- | []]. reflexivity.
Defined.

Lemma C6_first_image_part_saved_witness :
  files_written
    (snd (run (generate_image demo_cfg demo_rt (lit "a lake")
                 (lit "2026-01-14-lake") default_style)))
  = [(PathDiv (PathOf (lit "images")) (lit "2026-01-14-lake.png"), demo_png)].
Proof.
  refine (proj2 (proj2 (C6_first_image_part_saved demo_cfg demo_rt
                          (lit "a lake") (lit "2026-01-14-lake") default_style
                          demo_response
                          [text_part (lit "Here is your image.")]
                          (blob_part demo_png) [blob_part demo_garbage]
                          eq_refl eq_refl eq_refl _ eq_refl)
                   (Some demo_png) demo_png demo_png eq_refl eq_refl eq_refl)).
  intros p [<- | []]. reflexivity.
Defined.

Lemma C7_header_filename_witness :
  exists T,
    (forall r, T <> HYPHEN :: r)
    /\ PathDiv (PathOf (lit "images")) (lit "2026-01-14-sauna-sisu.png")
       = PathDiv (IMAGES_DIR demo_cfg)
           (lit "2026-01-14" ++ [HYPHEN] ++ firstn 30 T ++ lit ".png").
Proof.
  destruct (C7_header_filename demo_cfg demo_rt (lit "--Sauna & SISU!!")
              (lit "2026-01-14") None)
    as ((a & b & T & _ & H1 & _ & _ & _ & R) & _).
  exists T. split; [exact H1|].
  exact (R working_console
           (PathDiv (PathOf (lit "images")) (lit "2026-01-14-sauna-sisu.png"))
           eq_refl).
Defined.

Lemma C8_vocabulary_card_witness :
  key_present (GEMINI_API_KEY demo_cfg) = true
  /\ List.map (fun r => firstn 71 (contents r))
       (requests_of
          (snd (run (generate_vocabulary_card_image demo_cfg demo_rt
                       (lit "Kiitos") (lit "thank you") (lit "2026-01-14")))))
     = [lit "Create a simple icon illustration for a Finnish language learning blog."].
Proof.
  split; [reflexivity|].
  destruct (C8_vocabulary_card demo_cfg demo_rt (lit "Kiitos") (lit "thank you")
              (lit "2026-01-14")) as (_ & _ & _ & H & _).
  etransitivity;
    [apply (f_equal (List.map (fun r => firstn 71 (contents r))));
     exact (H working_console eq_refl)
    | reflexivity].
Defined.

Lemma C9_vocabulary_word_only_lowered_witness :
  vocabulary_filename demo_rt
    (lit "Hyv" ++ [228; 228] ++ lit " p" ++ [228] ++ lit "iv" ++ [228; 228]
     ++ lit "!")
    (lit "2026-01-14")
  = lit "2026-01-14-vocab-hyv" ++ [228; 228] ++ lit " p" ++ [228] ++ lit "iv"
    ++ [228; 228] ++ lit "!".
Proof.
  destruct (C9_vocabulary_word_only_lowered demo_cfg demo_rt
              (lit "Hyv" ++ [228; 228] ++ lit " p" ++ [228] ++ lit "iv"
               ++ [228; 228] ++ lit "!")
              (lit "good day") (lit "2026-01-14"))
    as (_ & _ & Hkept & _).
  etransitivity;
    [exact (Hkept (lit "Hyv" ++ [228; 228]) 32
              (lit "p" ++ [228] ++ lit "iv" ++ [228; 228] ++ lit "!")
              eq_refl (or_introl (conj eq_refl eq_refl)))
    | reflexivity].
Defined.

Lemma C10_falsy_inline_data_skipped_witness :
  run (generate_image demo_cfg
         (answering demo_rt
            (response_of_parts
               [ {| inline_data := Some (PyBytes []); text := None |};
                 blob_part demo_png ]))
         (lit "a lake") (lit "2026-01-14-lake") default_style)
  = run (generate_image demo_cfg
           (answering demo_rt
              (response_of_parts
                 [ {| inline_data := None; text := None |};
                   blob_part demo_png ]))
           (lit "a lake") (lit "2026-01-14-lake") default_style).
Proof.
  destruct (C10_falsy_inline_data_skipped demo_cfg demo_rt
              (lit "a lake") (lit "2026-01-14-lake") default_style
              [] {| inline_data := Some (PyBytes []); text := None |}
              [blob_part demo_png] (PyBytes []) eq_refl eq_refl)
    as (_ & _ & _ & H & _).
  exact H.
Defined.

(** * Further properties of the module *)

(** ** More on the slug *)

Lemma slug_char_cases (c : codepoint) :
  slug_char c = true -> is_az09 c = true \/ c = HYPHEN.
Proof.
  unfold slug_char. intros H. apply orb_prop in H. destruct H as [H|H].
  - now left.
  - right. now apply N.eqb_eq.
Qed.

Lemma slug_char_lower_fixed (c : codepoint) :
  slug_char c = true -> is_ascii c = true /\ is_upper_ascii c = false.
Proof.
  intros H. unfold is_ascii, is_upper_ascii.
  destruct (slug_char_cases c H) as [A | ->]; [|now split].
  unfold is_az09 in A.
  split.
  - apply N.ltb_lt.
    apply orb_prop in A. destruct A as [A|A]; apply andb_prop in A;
      destruct A as [_ A]; apply N.leb_le in A; lia.
  - apply andb_false_iff.
    apply orb_prop in A. destruct A as [A|A]; apply andb_prop in A;
      destruct A as [A1 A2]; apply N.leb_le in A1; apply N.leb_le in A2.
    + right. apply N.leb_gt. lia.
    + left. apply N.leb_gt. lia.
Qed.

(** Lower-casing leaves a string of slug characters as it is. *)
Lemma lower_from_slug_chars (tbl : case_table) (before s : pystr) :
  forallb slug_char s = true -> lower_from tbl before s = s.
Proof.
  revert before. induction s as [|c s IH]; intros before H; [reflexivity|].
  simpl in H. apply andb_prop in H. destruct H as [Hc Hs].
  destruct (slug_char_lower_fixed c Hc) as [A U].
  cbn [lower_from]. rewrite (lower_cp_ascii_fixed tbl before c s A U).
  cbn [app]. now rewrite IH.
Qed.

(** So does the substitution, when the hyphens already stand alone. *)
Lemma re_sub_runs_slug_chars (in_run : bool) (s : pystr) :
  forallb slug_char s = true ->
  single_hyphens s = true ->
  (in_run = true -> starts_with_hyphen s = false) ->
  re_sub_runs (fun c => negb (is_az09 c)) [HYPHEN] in_run s = s.
Proof.
  revert in_run. induction s as [|c s IH]; intros in_run C S B; [reflexivity|].
  cbn [forallb] in C. apply andb_prop in C. destruct C as [Cc Cs].
  pose proof (single_hyphens_tail c s S) as St.
  cbn [re_sub_runs]. destruct (is_az09 c) eqn:E; cbn [negb].
  - f_equal. apply IH; [assumption | assumption | discriminate].
  - destruct (slug_char_cases c Cc) as [A | ->]; [congruence|].
    destruct in_run.
    + specialize (B eq_refl). discriminate B.
    + cbn [app]. f_equal. apply IH; [assumption | assumption |].
      intros _. destruct s as [|b s]; [reflexivity|].
      cbn [single_hyphens] in S. apply andb_prop in S. destruct S as [S _].
      apply negb_true_iff in S. cbn [starts_with_hyphen]. exact S.
Qed.

Lemma str_lstrip_no_hyphen (s : pystr) :
  starts_with_hyphen s = false -> str_lstrip (N.eqb HYPHEN) s = s.
Proof.
  destruct s as [|c s]; [reflexivity|]. cbn [starts_with_hyphen str_lstrip].
  rewrite N.eqb_sym. now intros ->.
Qed.

Lemma str_rstrip_no_hyphen (s : pystr) :
  ends_with_hyphen s = false -> str_rstrip (N.eqb HYPHEN) s = s.
Proof.
  unfold ends_with_hyphen, str_rstrip. intros H.
  rewrite str_lstrip_no_hyphen by exact H. apply rev_involutive.
Qed.

Lemma re_sub_runs_length cls (in_run : bool) (s : pystr) :
  (List.length (re_sub_runs cls [HYPHEN] in_run s) <= List.length s)%nat.
Proof.
  revert in_run. induction s as [|c s IH]; intros in_run; [apply Nat.le_refl|].
  cbn [re_sub_runs]. destruct (cls c); [destruct in_run|]; cbn [app List.length].
  - specialize (IH true). lia.
  - specialize (IH true). lia.
  - specialize (IH false). lia.
Qed.

Lemma str_strip_length chars (s : pystr) :
  (List.length (str_strip chars s) <= List.length s)%nat.
Proof.
  unfold str_strip.
  destruct (str_rstrip_firstn chars (str_lstrip chars s)) as (k2 & ->).
  destruct (str_lstrip_skipn chars s) as (k1 & ->).
  rewrite length_firstn, length_skipn. lia.
Qed.

(** The letters and digits pass through every step of the slug. *)
Lemma re_sub_runs_alnum (in_run : bool) (s : pystr) :
  filter is_az09 (re_sub_runs (fun c => negb (is_az09 c)) [HYPHEN] in_run s)
  = filter is_az09 s.
Proof.
  revert in_run. induction s as [|c s IH]; intros in_run; [reflexivity|].
  cbn [re_sub_runs filter]. destruct (is_az09 c) eqn:E; cbn [negb].
  - cbn [filter]. rewrite E. now rewrite IH.
  - destruct in_run; cbn [app filter]; apply IH.
Qed.

Lemma str_lstrip_alnum (s : pystr) :
  filter is_az09 (str_lstrip (N.eqb HYPHEN) s) = filter is_az09 s.
Proof.
  induction s as [|c s IH]; [reflexivity|].
  cbn [str_lstrip]. destruct (HYPHEN =? c) eqn:E; [|reflexivity].
  apply N.eqb_eq in E. subst c. cbn [filter]. exact IH.
Qed.

Lemma str_strip_alnum (s : pystr) :
  filter is_az09 (str_strip (N.eqb HYPHEN) s) = filter is_az09 s.
Proof.
  unfold str_strip, str_rstrip.
  rewrite filter_rev, str_lstrip_alnum, filter_rev, rev_involutive.
  apply str_lstrip_alnum.
Qed.

(** A string without letters and digits becomes at most one hyphen, which
    the strip removes. *)
Lemma re_sub_runs_no_alnum (in_run : bool) (s : pystr) :
  forallb (fun c => negb (is_az09 c)) s = true ->
  str_strip (N.eqb HYPHEN)
    (re_sub_runs (fun c => negb (is_az09 c)) [HYPHEN] in_run s) = [].
Proof.
  intros H.
  assert (R : forall b, re_sub_runs (fun c => negb (is_az09 c)) [HYPHEN] b s = []
                        \/ re_sub_runs (fun c => negb (is_az09 c)) [HYPHEN] b s
                           = [HYPHEN]).
  { induction s as [|c s IH]; intros b; [now left|].
    cbn [forallb] in H. apply andb_prop in H. destruct H as [Hc Hs].
    cbn [re_sub_runs]. rewrite Hc.
    assert (T : re_sub_runs (fun c => negb (is_az09 c)) [HYPHEN] true s = []).
    { destruct (IH Hs true) as [E|E]; [exact E|].
      pose proof (proj2 (re_sub_runs_single true s) eq_refl) as N.
      rewrite E in N. discriminate N. }
    destruct b; rewrite T; [now left | now right]. }
  destruct (R in_run) as [-> | ->]; reflexivity.
Qed.

(** A string that already has the shape of a slug is only stripped of a
    hyphen at its end. *)
Lemma slug_of_slug_shaped (tbl : case_table) (s : pystr) :
  forallb slug_char s = true ->
  single_hyphens s = true ->
  starts_with_hyphen s = false ->
  (List.length s <= 30)%nat ->
  slug tbl s = str_rstrip (N.eqb HYPHEN) s.
Proof.
  intros C S H L. unfold slug, slice_to, str_strip, re_sub_class_plus, str_lower.
  rewrite lower_from_slug_chars by exact C.
  rewrite re_sub_runs_slug_chars by (try assumption; discriminate).
  rewrite str_lstrip_no_hyphen by exact H.
  apply firstn_all2.
  destruct (str_rstrip_firstn (N.eqb HYPHEN) s) as (k & ->).
  rewrite length_firstn. lia.
Qed.

(** X1.  Every slug is made of [a-z], [0-9] and hyphens, has no two hyphens
    in a row, does not begin with a hyphen, has at most 30 characters, and,
    when it is not empty, begins with a letter or a digit. *)
Theorem slug_chars_hyphens_length (tbl : case_table) (topic : pystr) :
  forallb slug_char (slug tbl topic) = true
  /\ single_hyphens (slug tbl topic) = true
  /\ starts_with_hyphen (slug tbl topic) = false
  /\ (List.length (slug tbl topic) <= 30)%nat
  /\ (forall c rest, slug tbl topic = c :: rest -> is_az09 c = true).
Proof.
  destruct (slug_shape tbl topic) as (C & S & H & L).
  repeat split; try assumption.
  intros c rest E. rewrite E in C, H.
  cbn [forallb] in C. apply andb_prop in C. destruct C as [Cc _].
  cbn [starts_with_hyphen] in H.
  destruct (slug_char_cases c Cc) as [A | ->]; [exact A | discriminate H].
Qed.

(** X2.  An ASCII topic of at most 30 characters is never cut, so its slug
    has no hyphen at its end either. *)
Theorem slug_of_short_ascii_topic (tbl : case_table) (topic : pystr) :
  forallb is_ascii topic = true ->
  (List.length topic <= 30)%nat ->
  well_formed_slug (slug tbl topic) = true.
Proof.
  intros A L. apply slug_short_no_trailing_hyphen.
  eapply Nat.le_trans; [apply str_strip_length|].
  eapply Nat.le_trans; [apply re_sub_runs_length|].
  unfold str_lower. rewrite lower_from_ascii by exact A.
  now rewrite length_map.
Qed.

(** X3.  Taking the slug of a slug only removes a hyphen left at its end;
    a slug without one is unchanged, and the slug of a slug is always
    unchanged by a further pass. *)
Theorem slug_of_slug (tbl : case_table) (topic : pystr) :
  slug tbl (slug tbl topic) = str_rstrip (N.eqb HYPHEN) (slug tbl topic)
  /\ (ends_with_hyphen (slug tbl topic) = false ->
      slug tbl (slug tbl topic) = slug tbl topic)
  /\ slug tbl (slug tbl (slug tbl topic)) = slug tbl (slug tbl topic).
Proof.
  assert (F : forall t, slug tbl (slug tbl t)
                        = str_rstrip (N.eqb HYPHEN) (slug tbl t)).
  { intros t. destruct (slug_shape tbl t) as (C & S & H & L).
    now apply slug_of_slug_shaped. }
  split; [apply F|]. split.
  - intros E. rewrite F. now apply str_rstrip_no_hyphen.
  - rewrite (F (slug tbl topic)). rewrite (F topic).
    apply str_rstrip_no_hyphen. apply str_rstrip_tail.
Qed.

(** X4.  Two ASCII topics, or words, that differ only in the case of their
    letters get the same file name; with a custom prompt the two header
    calls are the same call. *)
Theorem file_names_ignore_ascii_case cfg rt (t1 t2 date : pystr) :
  forallb is_ascii t1 = true ->
  forallb is_ascii t2 = true ->
  List.map ascii_lower t1 = List.map ascii_lower t2 ->
  header_filename rt t1 date = header_filename rt t2 date
  /\ vocabulary_filename rt t1 date = vocabulary_filename rt t2 date
  /\ (forall custom,
        custom <> [] ->
        generate_blog_header_image cfg rt t1 date (Some custom)
        = generate_blog_header_image cfg rt t2 date (Some custom)).
Proof.
  intros A1 A2 E.
  assert (L : str_lower (unicode_lower rt) t1 = str_lower (unicode_lower rt) t2).
  { unfold str_lower. now rewrite !lower_from_ascii by assumption. }
  assert (H : header_filename rt t1 date = header_filename rt t2 date).
  { unfold header_filename, slug. now rewrite L. }
  split; [exact H|]. split.
  - unfold vocabulary_filename. now rewrite L.
  - intros custom N. rewrite generate_blog_header_image_call. rewrite H.
    destruct custom; [contradiction | reflexivity].
Qed.

(** X5.  An ASCII topic without a letter or a digit, the empty topic
    included, has the empty slug: the header file is named by the date and
    a hyphen alone. *)
Theorem slug_of_topic_without_alnum cfg rt (topic date : pystr) :
  forallb (fun c => is_ascii c && negb (is_upper_ascii c) && negb (is_az09 c))
    topic = true ->
  slug (unicode_lower rt) topic = []
  /\ header_filename rt topic date = date ++ [HYPHEN]
  /\ output_path_of cfg (header_filename rt topic date)
     = PathDiv (IMAGES_DIR cfg) (date ++ lit "-.png").
Proof.
  intros H.
  assert (A : forallb is_ascii topic = true).
  { rewrite forallb_forall in *. intros c Hc. specialize (H c Hc).
    apply andb_prop in H. destruct H as [H _]. apply andb_prop in H. tauto. }
  assert (L : str_lower (unicode_lower rt) topic = topic).
  { unfold str_lower. rewrite lower_from_ascii by exact A.
    rewrite <- (map_id topic) at 2. apply map_ext_in. intros c Hc.
    rewrite forallb_forall in H. specialize (H c Hc).
    apply andb_prop in H. destruct H as [H _]. apply andb_prop in H.
    destruct H as [_ U]. apply negb_true_iff in U.
    unfold ascii_lower. now rewrite U. }
  assert (S : slug (unicode_lower rt) topic = []).
  { unfold slug, slice_to, re_sub_class_plus. rewrite L.
    rewrite re_sub_runs_no_alnum; [reflexivity|].
    rewrite forallb_forall in *. intros c Hc. specialize (H c Hc).
    apply andb_prop in H. tauto. }
  split; [exact S|].
  assert (F : header_filename rt topic date = date ++ [HYPHEN]).
  { unfold header_filename. rewrite S. now rewrite app_nil_r. }
  split; [exact F|].
  unfold output_path_of. rewrite F. now rewrite <- app_assoc.
Qed.

(** X6.  The slug keeps the letters and digits of the lower-cased topic, in
    their order: those of the slug are a prefix of those of the topic, and
    all of them when the lower-cased topic has at most 30 characters. *)
Theorem slug_keeps_letters_and_digits (tbl : case_table) (topic : pystr) :
  (exists rest,
      filter is_az09 (str_lower tbl topic)
      = filter is_az09 (slug tbl topic) ++ rest)
  /\ ((List.length (str_lower tbl topic) <= 30)%nat ->
      filter is_az09 (slug tbl topic) = filter is_az09 (str_lower tbl topic)).
Proof.
  unfold slug, slice_to, re_sub_class_plus.
  set (s := str_strip (N.eqb HYPHEN)
              (re_sub_runs (fun c => negb (is_az09 c)) [HYPHEN] false
                 (str_lower tbl topic))).
  assert (E : filter is_az09 s = filter is_az09 (str_lower tbl topic)).
  { subst s. now rewrite str_strip_alnum, re_sub_runs_alnum. }
  split.
  - exists (filter is_az09 (skipn 30 s)).
    rewrite <- E. rewrite <- filter_app. now rewrite firstn_skipn.
  - intros L. rewrite <- E. rewrite firstn_all2; [reflexivity|].
    subst s. eapply Nat.le_trans; [apply str_strip_length|].
    eapply Nat.le_trans; [apply re_sub_runs_length | exact L].
Qed.

(** ** More on the image-generation call *)

(** X7.  With a key, every call of [generate_image] sends exactly one
    request and ends in one of five ways.  The file is written, the line
    that says so is printed and the path is returned.  Or no part held an
    image, which is printed, and [None] is returned.  Or an instance of
    [Exception] was caught, the failure line is printed and [None] is
    returned.  Or an instance of [Exception] was caught and printing the
    failure line raised, and the exception of the print reaches the caller.
    Or an exception of another kind goes on to the caller.  In the last
    three cases the output path may hold what the run left there: the
    remains of a save that failed, or the whole file when the print after
    the save raised. *)
Theorem generate_image_five_outcomes cfg rt console prompt filename style :
  key_present (GEMINI_API_KEY cfg) = true ->
  let sent := EvRequest (genai_Client (GEMINI_API_KEY cfg))
                (image_request cfg style prompt) in
  let output_path := PathDiv (IMAGES_DIR cfg) (filename ++ lit ".png") in
  let call := run (generate_image_on cfg rt console prompt filename style) in
  (exists png,
      console (MsgSaved output_path) = None
      /\ call = (Return (Some output_path),
                 [sent; EvFileWritten output_path png;
                  EvPrint (MsgSaved output_path)]))
  \/ (console MsgNoImage = None
      /\ call = (Return None, [sent; EvPrint MsgNoImage]))
  \/ (exists files,
         (files = [] \/ exists b, files = [EvFileWritten output_path b])
         /\ ((exists e,
                 console (MsgFailed e) = None
                 /\ call = (Return None,
                            [sent] ++ files ++ [EvPrint (MsgFailed e)]))
             \/ (exists e e',
                    console (MsgFailed e) = Some e'
                    /\ call = (Raised e', [sent] ++ files))
             \/ (exists x, call = (RaisedBase x, [sent] ++ files)))).
Proof.
  intros K. exact (generate_image_on_cases cfg rt console prompt filename style K).
Qed.

(** X8.  With a key, a call touches at most one file, and only the one at
    [IMAGES_DIR / (filename + ".png")]; a path that is returned is that
    path, and then exactly one file is on record, written there by the
    save. *)
Theorem files_only_at_output_path cfg rt console prompt filename style :
  key_present (GEMINI_API_KEY cfg) = true ->
  let output_path := PathDiv (IMAGES_DIR cfg) (filename ++ lit ".png") in
  let call := run (generate_image_on cfg rt console prompt filename style) in
  (forall p, fst call = Return (Some p) ->
             p = output_path
             /\ exists png, files_written (snd call) = [(output_path, png)])
  /\ (forall p b, In (p, b) (files_written (snd call)) -> p = output_path)
  /\ (List.length (files_written (snd call)) <= 1)%nat.
Proof.
  intros K output_path call. subst call output_path.
  pose proof (generate_image_on_cases cfg rt console prompt filename style K) as C.
  cbv zeta in C. unfold output_path_of in C.
  assert (Files : forall files : trace,
             (files = []
              \/ exists b,
                   files = [EvFileWritten
                              (PathDiv (IMAGES_DIR cfg) (filename ++ lit ".png")) b]) ->
             forall sent tail,
               files_written [sent] = [] -> files_written tail = [] ->
               (forall p b, In (p, b) (files_written ([sent] ++ files ++ tail)) ->
                            p = PathDiv (IMAGES_DIR cfg) (filename ++ lit ".png"))
               /\ (List.length (files_written ([sent] ++ files ++ tail)) <= 1)%nat).
  { intros files F sent tail Hs Ht. unfold files_written in *.
    rewrite !flat_map_app, Hs, Ht.
    destruct F as [-> | (b & ->)]; cbn [flat_map app List.length In].
    - split; [intros p b [] | lia].
    - split; [intros p b' [H | []]; congruence | lia]. }
  set (sent := EvRequest (genai_Client (GEMINI_API_KEY cfg))
                 (image_request cfg style prompt)) in *.
  destruct C as [(png & _ & E)
                | [(_ & E)
                  | (files & F & [(e & _ & E) | [(e & e' & _ & E) | (x & E)]])]];
    rewrite E; cbn [fst snd].
  - split; [|split].
    + intros p H. split; [congruence | now exists png].
    + intros p b [H | []]. congruence.
    + cbn. lia.
  - split; [|split].
    + discriminate.
    + intros p b [].
    + cbn. lia.
  - split; [discriminate|].
    exact (Files files F sent [EvPrint (MsgFailed e)] eq_refl eq_refl).
  - split; [discriminate|].
    rewrite <- (app_nil_r files).
    exact (Files files F sent [] eq_refl eq_refl).
  - split; [discriminate|].
    rewrite <- (app_nil_r files).
    exact (Files files F sent [] eq_refl eq_refl).
Qed.

(** X9.  A [Blob] with no payload, or an empty one, still counts as the
    image: when it is the first part to pass the test and the decoder
    rejects the empty buffer, the call returns [None] and writes nothing,
    whatever the later parts hold. *)
Theorem empty_blob_blocks_later_parts
  cfg rt prompt filename style response pre part post blob e :
  key_present (GEMINI_API_KEY cfg) = true ->
  generate_content rt (genai_Client (GEMINI_API_KEY cfg))
    (image_request cfg style prompt) = inr response ->
  response_parts response = inr (pre ++ part :: post) ->
  (forall p, In p pre -> image_bearing p = false) ->
  inline_data part = Some (PyBlob blob) ->
  data blob = None \/ data blob = Some [] ->
  image_open rt [] = inl e ->
  run (generate_image cfg rt prompt filename style)
  = (Return None,
     [EvRequest (genai_Client (GEMINI_API_KEY cfg)) (image_request cfg style prompt);
      EvPrint (MsgFailed e)])
  /\ files_written (snd (run (generate_image cfg rt prompt filename style))) = [].
Proof.
  intros K G P Hpre I D O.
  assert (B : image_bearing part = true) by (unfold image_bearing; now rewrite I).
  assert (E : run (generate_image cfg rt prompt filename style)
              = (Return None,
                 [EvRequest (genai_Client (GEMINI_API_KEY cfg))
                    (image_request cfg style prompt);
                  EvPrint (MsgFailed e)])).
  { unfold run. rewrite generate_image_with_key by assumption.
    apply (try_except_caught _ [] e
             [EvRequest (genai_Client (GEMINI_API_KEY cfg))
                (image_request cfg style prompt)]).
    rewrite (generate_image_try_parts _ _ _ _ _ _ _ _ _ G P).
    rewrite scan_parts_first by assumption.
    apply save_part_raises. right. exists (data blob). split.
    - unfold inline_bytes. now rewrite I.
    - destruct D as [-> | ->]; exact O. }
  split; [exact E | now rewrite E].
Qed.

(** ** More on the header builder *)

Lemma full_prompt_inj (style p1 p2 : pystr) :
  full_prompt style p1 = full_prompt style p2 -> p1 = p2.
Proof.
  unfold full_prompt. intros H.
  do 6 apply app_inv_head in H.
  now apply app_inv_tail in H.
Qed.

Lemma default_header_prompt_inj (t1 t2 : pystr) :
  default_header_prompt t1 = default_header_prompt t2 -> t1 = t2.
Proof.
  unfold default_header_prompt. intros H.
  do 2 apply app_inv_head in H.
  now apply app_inv_tail in H.
Qed.

(** X10.  Without a custom prompt, absent or empty, the one request of the
    header builder carries the default description with the topic between
    quotes, in the template with the default style; two topics give the
    same request only when they are the same topic. *)
Theorem default_header_request_names_topic cfg rt (t1 t2 date : pystr) custom :
  key_present (GEMINI_API_KEY cfg) = true ->
  custom = None \/ custom = Some [] ->
  requests_of (snd (run (generate_blog_header_image cfg rt t1 date custom)))
  = [image_request cfg (lit "modern flat illustration")
       (lit "A warm, inviting illustration representing " ++ QUOTE ++ t1 ++ QUOTE
        ++ lit " " ++ NL
        ++ lit "        for Finnish language learners. The scene should evoke Finland's "
        ++ NL
        ++ lit "        culture and lifestyle while being educational and approachable.")]
  /\ (requests_of (snd (run (generate_blog_header_image cfg rt t1 date custom)))
      = requests_of (snd (run (generate_blog_header_image cfg rt t2 date custom))) ->
      t1 = t2).
Proof.
  intros K C.
  assert (R : forall t,
             requests_of (snd (run (generate_blog_header_image cfg rt t date custom)))
             = [image_request cfg default_style (default_header_prompt t)]).
  { intros t. rewrite generate_blog_header_image_call.
    rewrite generate_image_requests by assumption.
    destruct C as [-> | ->]; reflexivity. }
  split; [apply R|].
  rewrite !R. intros E.
  apply default_header_prompt_inj. apply full_prompt_inj with default_style.
  exact (f_equal (fun l => match l with r :: _ => contents r | [] => [] end) E).
Qed.

(** ** The further properties at concrete inputs *)

Lemma slug_chars_hyphens_length_witness :
  slug no_table (lit "Finnish Greetings!!") = 102 :: lit "innish-greetings"
  /\ is_az09 102 = true.
Proof.
  assert (E : slug no_table (lit "Finnish Greetings!!")
              = 102 :: lit "innish-greetings") by (vm_compute; reflexivity).
  split; [exact E|].
  destruct (slug_chars_hyphens_length no_table (lit "Finnish Greetings!!"))
    as (_ & _ & _ & _ & H).
  exact (H 102 (lit "innish-greetings") E).
Defined.

Lemma slug_of_short_ascii_topic_witness :
  well_formed_slug (slug no_table (lit "  Sauna & Sisu: 2026 edition ")) = true.
Proof.
  apply (slug_of_short_ascii_topic no_table (lit "  Sauna & Sisu: 2026 edition ")).
  - reflexivity.
  - vm_compute. lia.
Defined.

Lemma slug_of_slug_witness :
  slug no_table (slug no_table (lit "Finnish Greetings!!"))
  = slug no_table (lit "Finnish Greetings!!").
Proof.
  destruct (slug_of_slug no_table (lit "Finnish Greetings!!")) as (_ & H & _).
  apply H. reflexivity.
Defined.

Lemma file_names_ignore_ascii_case_witness :
  header_filename demo_rt (lit "Finnish Greetings") (lit "2026-01-14")
  = header_filename demo_rt (lit "FINNISH greetings") (lit "2026-01-14").
Proof.
  destruct (file_names_ignore_ascii_case demo_cfg demo_rt
              (lit "Finnish Greetings") (lit "FINNISH greetings")
              (lit "2026-01-14") eq_refl eq_refl eq_refl) as (H & _).
  exact H.
Defined.

Lemma slug_of_topic_without_alnum_witness :
  header_filename demo_rt (lit "?!  ...") (lit "2026-01-14") = lit "2026-01-14-".
Proof.
  destruct (slug_of_topic_without_alnum demo_cfg demo_rt (lit "?!  ...")
              (lit "2026-01-14") eq_refl) as (_ & H & _).
  exact H.
Defined.

Lemma slug_keeps_letters_and_digits_witness :
  filter is_az09 (slug no_table (lit "Sauna & Sisu: 2026"))
  = lit "saunasisu2026".
Proof.
  destruct (slug_keeps_letters_and_digits no_table (lit "Sauna & Sisu: 2026"))
    as (_ & H).
  rewrite H; [reflexivity|]. vm_compute. lia.
Defined.

Lemma generate_image_five_outcomes_witness :
  key_present (GEMINI_API_KEY demo_cfg) = true
  /\ exists o t,
       run (generate_image_on demo_cfg
              (mock_rt (inl (OfBase KeyboardInterrupt)) true) working_console
              (lit "a lake") (lit "2026-01-14-lake") default_style) = (o, t)
       /\ t <> [].
Proof.
  split; [reflexivity|].
  destruct (generate_image_five_outcomes demo_cfg
              (mock_rt (inl (OfBase KeyboardInterrupt)) true) working_console
              (lit "a lake") (lit "2026-01-14-lake") default_style eq_refl)
    as [(png & _ & E)
       | [(_ & E)
         | (files & _ & [(e & _ & E) | [(e & e' & _ & E) | (x & E)]])]];
    rewrite E; eexists; eexists; (split; [reflexivity | discriminate]).
Defined.

Lemma files_only_at_output_path_witness :
  exists png,
    files_written
      (snd (run (generate_image_on demo_cfg demo_rt working_console (lit "a lake")
                   (lit "2026-01-14-lake") default_style)))
    = [(PathDiv (PathOf (lit "images")) (lit "2026-01-14-lake.png"), png)].
Proof.
  destruct (files_only_at_output_path demo_cfg demo_rt working_console
              (lit "a lake") (lit "2026-01-14-lake") default_style eq_refl)
    as (H & _).
  exact (proj2 (H (PathDiv (PathOf (lit "images")) (lit "2026-01-14-lake.png"))
                  eq_refl)).
Defined.

Lemma empty_blob_blocks_later_parts_witness :
  run (generate_image demo_cfg
         (mock_rt (inr (response_of_parts [blob_part []; blob_part demo_png])) true)
         (lit "a lake") (lit "2026-01-14-lake") default_style)
  = (Return None,
     [EvRequest (genai_Client (GEMINI_API_KEY demo_cfg))
        (image_request demo_cfg default_style (lit "a lake"));
      EvPrint (MsgFailed (ImageError (lit "cannot identify image file")))]).
Proof.
  refine (proj1 (empty_blob_blocks_later_parts demo_cfg
                   (mock_rt
                      (inr (response_of_parts [blob_part []; blob_part demo_png]))
                      true)
                   (lit "a lake") (lit "2026-01-14-lake") default_style
                   (response_of_parts [blob_part []; blob_part demo_png])
                   [] (blob_part []) [blob_part demo_png]
                   {| data := Some []; mime_type := Some (lit "image/png") |}
                   (ImageError (lit "cannot identify image file"))
                   eq_refl eq_refl eq_refl _ eq_refl (or_intror eq_refl) eq_refl)).
  intros p [].
Defined.

Lemma default_header_request_names_topic_witness :
  List.map (fun r => firstn 45 (skipn 92 (contents r)))
    (requests_of
       (snd (run (generate_blog_header_image demo_cfg demo_rt (lit "Sauna")
                    (lit "2026-01-14") None))))
  = [lit "A warm, inviting illustration representing " ++ QUOTE ++ lit "S"].
Proof.
  pose proof (proj1 (default_header_request_names_topic demo_cfg demo_rt
                       (lit "Sauna") (lit "Sisu") (lit "2026-01-14") None
                       eq_refl (or_introl eq_refl))) as H.
  etransitivity;
    [apply (f_equal (List.map (fun r => firstn 45 (skipn 92 (contents r)))));
     exact H
    | reflexivity].
Defined.
